(** * GitHub webhook handler: diff positions, review splitting, delivery

    A shallow embedding of [biz/platforms/github/webhook_handler.py].

    Python [str] values are sequences of Unicode code points and are
    modelled as [list Z].  Python [int] is unbounded and is modelled
    as [Z].  Dictionaries decoded from JSON are finite maps with
    string keys.  Remote calls go through a small state-and-exception
    monad that records every request issued. *)

From Stdlib Require Import ZArith Lia Ascii String Sorted.
From stdpp Require Import base option list strings gmap.

Local Open Scope Z_scope.

(** ** Python strings *)

Module Py.

Definition str := list Z.

(** A literal written with ASCII characters only. *)
Definition lit (s : string) : str :=
  map (fun a => Z.of_nat (nat_of_ascii a)) (list_ascii_of_string s).

Definition inb (c : Z) (l : list Z) : bool := existsb (Z.eqb c) l.

(** [str.isspace] on one code point; the same set drives [str.strip]
    and the regular-expression class [\s]. *)
Definition isspace (c : Z) : bool :=
  ((9 <=? c) && (c <=? 13)) || ((28 <=? c) && (c <=? 32))
  || inb c [133; 160; 5760; 8232; 8233; 8239; 8287; 12288]
  || ((8192 <=? c) && (c <=? 8202)).

(** Code points of the decimal digit zero of every script (general
    category Nd comes in runs of ten consecutive code points). *)
Definition digit_zeros : list Z :=
  [48; 1632; 1776; 1984; 2406; 2534; 2662; 2790; 2918; 3046; 3174; 3302;
   3430; 3558; 3664; 3792; 3872; 4160; 4240; 6112; 6160; 6470; 6608; 6784;
   6800; 6992; 7088; 7232; 7248; 42528; 43216; 43264; 43472; 43504; 43600;
   44016; 65296; 66720; 68912; 69734; 69872; 69942; 70096; 70384; 70736;
   70864; 71248; 71360; 71472; 71904; 72016; 72784; 73040; 73120; 92768;
   92864; 93008; 120782; 120792; 120802; 120812; 120822; 123200; 123632;
   125264; 130032].

(** The value of a decimal digit, as [int] reads it. *)
Definition digit_value (c : Z) : option Z :=
  (fun z => c - z) <$> List.find (fun z => (z <=? c) && (c <? z + 10)) digit_zeros.

(** The regular-expression class [\d]. *)
Definition isdigit (c : Z) : bool := bool_decide (is_Some (digit_value c)).

(** Line boundaries recognised by [str.splitlines]. *)
Definition islinebreak (c : Z) : bool :=
  inb c [10; 11; 12; 13; 28; 29; 30; 133; 8232; 8233].

Fixpoint startswith (p s : str) : bool :=
  match p, s with
  | [], _ => true
  | a :: p', b :: s' => (a =? b) && startswith p' s'
  | _ :: _, [] => false
  end.

Fixpoint lstrip (s : str) : str :=
  match s with
  | c :: s' => if isspace c then lstrip s' else s
  | [] => []
  end.

Definition rstrip (s : str) : str := rev (lstrip (rev s)).

Definition strip (s : str) : str := rstrip (lstrip s).

(** [str.splitlines]: a carriage return followed by a line feed is one
    boundary, and no empty last line is produced. *)
Fixpoint splitlines_from (cur : str) (s : str) : list str :=
  match s with
  | [] => match cur with [] => [] | _ => [rev cur] end
  | c :: s' =>
      if c =? 13 then
        match s' with
        | 10 :: s'' => rev cur :: splitlines_from [] s''
        | _ => rev cur :: splitlines_from [] s'
        end
      else if islinebreak c then rev cur :: splitlines_from [] s'
      else splitlines_from (c :: cur) s'
  end.

Definition splitlines (s : str) : list str := splitlines_from [] s.

(** The number a run of decimal digits denotes. *)
Definition int_digits (s : str) : Z :=
  fold_left (fun acc c => 10 * acc + default 0 (digit_value c)) s 0.

(** [str.replace(old, new)] for a non-empty [old]: occurrences are
    replaced from left to right without overlap. *)
Fixpoint replace_from (old new : str) (skip : nat) (s : str) : str :=
  match s with
  | [] => []
  | c :: s' =>
      match skip with
      | S n => replace_from old new n s'
      | O =>
          if startswith old s then new ++ replace_from old new (Nat.pred (length old)) s'
          else c :: replace_from old new O s'
      end
  end.

Definition replace (old new s : str) : str := replace_from old new 0 s.

(** Whitespace [int] accepts around a number. *)
Definition int_space (c : Z) : bool := isspace c && negb ((28 <=? c) && (c <=? 31)).

Fixpoint drop_int_space (s : str) : str :=
  match s with
  | c :: s' => if int_space c then drop_int_space s' else s
  | [] => []
  end.

(** Digits with single underscores between them; the result is the
    list of digit values, most significant first. *)
Fixpoint int_body (after_digit : bool) (s : str) : option (list Z) :=
  match s with
  | [] => if after_digit then Some [] else None
  | c :: s' =>
      match digit_value c with
      | Some v => cons v <$> int_body true s'
      | None =>
          if (c =? 95) && after_digit then
            match s' with
            | [] => None
            | _ => int_body false s'
            end
          else None
      end
  end.

(** [int(s)] for a string: [None] stands for [ValueError].  The
    interpreter refuses numbers of more than [max_digits] digits
    unless the limit is zero. *)
Definition int_of_str (max_digits : nat) (s : str) : option Z :=
  let s := rev (drop_int_space (rev (drop_int_space s))) in
  let '(neg, s) :=
    match s with
    | 45 :: s' => (true, s')
    | 43 :: s' => (false, s')
    | _ => (false, s)
    end in
  match int_body false s with
  | Some ds =>
      if negb (Nat.eqb max_digits 0) && (max_digits <? length ds)%nat then None
      else
        let v := fold_left (fun acc d => 10 * acc + d) ds 0 in
        Some (if neg then - v else v)
  | None => None
  end.

(** [s.split(sep)] for a separator of one character: always at
    least one piece. *)
Fixpoint split_on_from (sep : Z) (cur : str) (s : str) : list str :=
  match s with
  | [] => [rev cur]
  | c :: s' =>
      if c =? sep then rev cur :: split_on_from sep [] s'
      else split_on_from sep (c :: cur) s'
  end.

Definition split_on (sep : Z) (s : str) : list str := split_on_from sep [] s.

Definition endswith (suffix s : str) : bool := startswith (rev suffix) (rev s).

(** [old] occurs nowhere in [s]. *)
Definition absent (old s : str) : Prop :=
  forall k, (k < length s)%nat -> startswith old (drop k s) = false.

End Py.

(** ** Regular expressions

    The fragment of Python's [re] the handler uses: character classes,
    greedy bounded repetition of a class, sequencing, alternation,
    optional and capturing groups, and the two anchors.  The matcher
    is a backtracking one in continuation-passing style, trying
    alternatives in Python's priority order. *)

Module Re.
Import Py.

Inductive re :=
| Eps
| Cls (p : Z -> bool)
| Rep (p : Z -> bool) (lo : nat) (hi : option nat)
| Seq (r1 r2 : re)
| Alt (r1 r2 : re)
| Opt (r : re)
| Grp (i : nat) (r : re)
| Bol
| Eol.

Definition caps := list (nat * str).
Definition cont := nat -> str -> caps -> option (nat * caps).

Definition hi_allows (hi : option nat) : bool :=
  match hi with Some O => false | _ => true end.

Definition hi_pred (hi : option nat) : option nat := Nat.pred <$> hi.

(** Greedy repetition: consume as many characters of the class as
    allowed, giving one back at a time when the rest fails. *)
Fixpoint rep (p : Z -> bool) (lo : nat) (hi : option nat)
    (pos : nat) (s : str) (cs : caps) (k : cont) : option (nat * caps) :=
  let stop := match lo with O => k pos s cs | S _ => None end in
  match s with
  | c :: s' =>
      if p c && hi_allows hi then
        match rep p (Nat.pred lo) (hi_pred hi) (S pos) s' cs k with
        | Some r => Some r
        | None => stop
        end
      else stop
  | [] => stop
  end.

Fixpoint run (r : re) (pos : nat) (s : str) (cs : caps) (k : cont)
    : option (nat * caps) :=
  match r with
  | Eps => k pos s cs
  | Cls p =>
      match s with
      | c :: s' => if p c then k (S pos) s' cs else None
      | [] => None
      end
  | Rep p lo hi => rep p lo hi pos s cs k
  | Seq r1 r2 => run r1 pos s cs (fun pos' s' cs' => run r2 pos' s' cs' k)
  | Alt r1 r2 =>
      match run r1 pos s cs k with
      | Some res => Some res
      | None => run r2 pos s cs k
      end
  | Opt r1 =>
      match run r1 pos s cs k with
      | Some res => Some res
      | None => k pos s cs
      end
  | Grp i r1 =>
      run r1 pos s cs
        (fun pos' s' cs' => k pos' s' ((i, take (pos' - pos) s) :: cs'))
  | Bol => match pos with O => k pos s cs | S _ => None end
  | Eol => match s with [] | [10] => k pos s cs | _ => None end
  end.

Definition accept : cont := fun pos _ cs => Some (pos, cs).

(** [re.match]: a match anchored at the start of the string; the
    result is the end offset and the captures. *)
Definition match_ (r : re) (s : str) : option (nat * caps) :=
  run r 0 s [] accept.

Definition group (i : nat) (m : nat * caps) : option str :=
  snd <$> List.find (fun e => Nat.eqb (fst e) i) (snd m).

(** [re.search]: the leftmost start offset at which the pattern
    matches, with the end offset. *)
Fixpoint search_from (r : re) (pos : nat) (s : str) : option (nat * nat) :=
  match run r pos s [] accept with
  | Some (e, _) => Some (pos, e)
  | None =>
      match s with
      | [] => None
      | _ :: s' => search_from r (S pos) s'
      end
  end.

Definition search (r : re) (s : str) : option (nat * nat) := search_from r 0 s.

(** Length of a non-empty match starting at [pos]. *)
Definition match_len (r : re) (pos : nat) (s : str) : option nat :=
  match run r pos s [] accept with
  | Some (e, _) => if (pos <? e)%nat then Some (e - pos)%nat else None
  | None => None
  end.

(** [re.sub] with a constant replacement, for patterns that never
    match the empty string (all patterns of the handler are such). *)
Fixpoint sub_from (r : re) (repl : str) (pos : nat) (skip : nat) (s : str) : str :=
  match s with
  | [] => []
  | c :: s' =>
      match skip with
      | S n => sub_from r repl (S pos) n s'
      | O =>
          match match_len r pos s with
          | Some (S n) => repl ++ sub_from r repl (S pos) n s'
          | _ => c :: sub_from r repl (S pos) O s'
          end
      end
  end.

Definition sub (r : re) (repl : str) (s : str) : str := sub_from r repl 0 0 s.

(** [re.split] for a pattern without groups that never matches the
    empty string. *)
Fixpoint split_from (r : re) (pos : nat) (skip : nat) (cur : str) (s : str)
    : list str :=
  match s with
  | [] => [rev cur]
  | c :: s' =>
      match skip with
      | S n => split_from r (S pos) n cur s'
      | O =>
          match match_len r pos s with
          | Some (S n) => rev cur :: split_from r (S pos) n [] s'
          | _ => split_from r (S pos) O (c :: cur) s'
          end
      end
  end.

Definition split (r : re) (s : str) : list str := split_from r 0 0 [] s.

(** Pattern building blocks. *)
Definition chr (c : Z) : re := Cls (Z.eqb c).
Definition oneof (l : list Z) : re := Cls (fun c => inb c l).
Definition any : Z -> bool := fun c => negb (c =? 10).
Fixpoint seqs (l : list re) : re :=
  match l with
  | [] => Eps
  | [r] => r
  | r :: l' => Seq r (seqs l')
  end.
Definition text (s : str) : re := seqs (map chr s).
Definition plus (p : Z -> bool) : re := Rep p 1 None.
Definition star (p : Z -> bool) : re := Rep p 0 None.

End Re.

(** ** JSON values and Python's dynamic operations on them *)

Module Json.
Import Py.

(** Values decoded from JSON; [JNull] is Python's [None].  Objects
    are dictionaries keyed by strings. *)
#[warnings="-register-all"]
Inductive json :=
| JNull
| JBool (b : bool)
| JInt (z : Z)
| JStr (s : str)
| JArr (l : list json)
| JObj (m : gmap string json).

Inductive exn :=
| AttributeError
| TypeError
| ValueError
| KeyError
| IndexError
| ZeroDivisionError.

(** The result of an operation that may raise. *)
Inductive res (A : Type) :=
| Ok (a : A)
| Raise (e : exn).
Arguments Ok {A} a.
Arguments Raise {A} e.

#[global] Instance exn_eq_dec : EqDecision exn.
Proof. solve_decision. Defined.

#[global] Instance res_eq_dec {A} `{EqDecision A} : EqDecision (res A).
Proof. solve_decision. Defined.

Definition rbind {A B} (x : res A) (f : A -> res B) : res B :=
  match x with
  | Ok a => f a
  | Raise e => Raise e
  end.

Fixpoint rmapM {A B} (f : A -> res B) (l : list A) : res (list B) :=
  match l with
  | [] => Ok []
  | a :: l' => rbind (f a) (fun b => rbind (rmapM f l') (fun bs => Ok (b :: bs)))
  end.

(** Truth value of a Python object. *)
Definition truthy (j : json) : bool :=
  match j with
  | JNull => false
  | JBool b => b
  | JInt z => negb (z =? 0)
  | JStr s => match s with [] => false | _ => true end
  | JArr l => match l with [] => false | _ => true end
  | JObj m => negb (bool_decide (m = ∅))
  end.

(** [a or b]. *)
Definition por (a b : json) : json := if truthy a then a else b.

(** [d.get(k, default)]; only dictionaries have the method. *)
Definition get_default (d : json) (k : string) (dflt : json) : res json :=
  match d with
  | JObj m => Ok (default dflt (m !! k))
  | _ => Raise AttributeError
  end.

(** [d.get(k)]. *)
Definition get (d : json) (k : string) : res json := get_default d k JNull.

Definition obj (kvs : list (string * json)) : json := JObj (list_to_map kvs).

(** A loop [for x in j] whose body starts with [x.get(...)]: a list
    gives its elements; the characters of a non-empty string and the
    keys of a non-empty dictionary are strings, on which [.get] raises;
    an empty string or dictionary gives no iteration; other values are
    not iterable. *)
Definition for_each_dict {B} (f : json -> res B) (j : json) : res (list B) :=
  match j with
  | JArr l => rmapM f l
  | JStr [] => Ok []
  | JStr (_ :: _) => Raise AttributeError
  | JObj m => if bool_decide (m = ∅) then Ok [] else Raise AttributeError
  | JNull | JBool _ | JInt _ => Raise TypeError
  end.

(** [x[-1]] on a truthy value. *)
Definition last_item (x : json) : res json :=
  match x with
  | JArr l => match last l with Some a => Ok a | None => Raise IndexError end
  | JStr s => match last s with Some c => Ok (JStr [c]) | None => Raise IndexError end
  | JObj _ => Raise KeyError
  | JNull | JBool _ | JInt _ => Raise TypeError
  end.

End Json.

(** ** Diff positions *)

Module Positions.
Import Py Re Json.

(** [@@ -\d+(?:,\d+)? \+(\d+)(?:,\d+)? @@] *)
Definition hunk_header_re : re :=
  seqs [ text (lit "@@ -"); plus isdigit;
         Opt (Seq (chr 44) (plus isdigit));
         text (lit " +"); Grp 1 (plus isdigit);
         Opt (Seq (chr 44) (plus isdigit));
         text (lit " @@") ].

(** [int(match.group(1)) if match else None]: the new-file start
    line of a hunk header when the header is well formed.  The
    conversion raises [ValueError] when the interpreter refuses the
    number for its length. *)
Definition header_start (max_digits : nat) (raw_line : str) : res (option Z) :=
  match match_ hunk_header_re raw_line with
  | Some m =>
      match int_of_str max_digits (default [] (group 1 m)) with
      | Some n => Ok (Some n)
      | None => Raise ValueError
      end
  | None => Ok None
  end.

Definition is_header (raw_line : str) : bool := startswith (lit "@@") raw_line.

Definition is_addition (raw_line : str) : bool :=
  startswith (lit "+") raw_line && negb (startswith (lit "+++") raw_line).

Definition is_deletion (raw_line : str) : bool :=
  startswith (lit "-") raw_line && negb (startswith (lit "---") raw_line).

(** One iteration of the loop of [_extract_comment_lines_from_diff];
    the state is [(current_new_line, comment_lines)]. *)
Definition scan_line (max_digits : nat) (st : option Z * list Z) (raw_line : str)
    : res (option Z * list Z) :=
  let '(current_new_line, comment_lines) := st in
  if startswith (lit "@@") raw_line then
    rbind (header_start max_digits raw_line) (fun start =>
    Ok (start, comment_lines))
  else
    match current_new_line with
    | None => Ok st
    | Some n =>
        if startswith (lit "+") raw_line && negb (startswith (lit "+++") raw_line)
        then Ok (Some (n + 1), comment_lines ++ [n])
        else if startswith (lit "-") raw_line && negb (startswith (lit "---") raw_line)
        then Ok st
        else Ok (Some (n + 1), comment_lines)
    end.

(** The loop over the lines, from a given state; an error ends it. *)
Fixpoint scan_from (max_digits : nat) (lines : list str) (st : option Z * list Z)
    : res (option Z * list Z) :=
  match lines with
  | [] => Ok st
  | raw_line :: rest =>
      rbind (scan_line max_digits st raw_line) (scan_from max_digits rest)
  end.

Definition scan (max_digits : nat) (lines : list str) : res (option Z * list Z) :=
  scan_from max_digits lines (None, []).

(** The running new-file line counter after the given lines, and
    the line numbers recorded while scanning them. *)
Definition counter_after (max_digits : nat) (lines : list str) : res (option Z) :=
  rbind (scan max_digits lines) (fun st => Ok (fst st)).

Definition recorded (max_digits : nat) (lines : list str) : res (list Z) :=
  rbind (scan max_digits lines) (fun st => Ok (snd st)).

Definition _extract_comment_lines_from_diff (max_digits : nat) (diff : str)
    : res (list Z) :=
  match diff with
  | [] => Ok []
  | _ => rbind (scan max_digits (splitlines diff)) (fun st => Ok (snd st))
  end.

Record position := { path : json; line : Z }.

(** Number of lines of a hunk body that exist in the new file. *)
Definition new_file_lines (seg : list str) : nat :=
  length (filter (fun l => is_deletion l = false) seg).

(** [_extract_comment_lines_from_diff] as [_extract_review_positions]
    calls it: on whatever [change.get('diff') or change.get('patch')
    or ''] evaluates to. *)
Definition comment_lines_of (max_digits : nat) (diff : json) : res (list Z) :=
  if truthy diff then
    match diff with
    | JStr s => _extract_comment_lines_from_diff max_digits s
    | _ => Raise AttributeError
    end
  else Ok [].

Definition positions_of_change (max_digits : nat) (change : json)
    : res (list position) :=
  rbind (get change "new_path") (fun new_path =>
  rbind (if truthy new_path then Ok new_path
         else rbind (get change "filename") (fun filename =>
              if truthy filename then Ok filename else get change "old_path"))
        (fun path =>
  if truthy path then
    rbind (get change "diff") (fun d =>
    rbind (if truthy d then Ok d
           else rbind (get change "patch") (fun p => Ok (por p (JStr []))))
          (fun diff =>
    rbind (comment_lines_of max_digits diff) (fun lines =>
    Ok (map (fun l => {| path := path; line := l |}) lines))))
  else Ok [])).

Definition _extract_review_positions (max_digits : nat) (changes : list json)
    : res (list position) :=
  rbind (rmapM (positions_of_change max_digits) changes) (fun ps => Ok (concat ps)).

(** A non-empty run of decimal digits, and the optional [,count]
    part of a hunk header. *)
Definition digits (s : str) : Prop :=
  s <> [] /\ Forall (fun c => isdigit c = true) s.



(** The interpreter converts a run of [n] digits. *)
Definition within_limit (max_digits n : nat) : Prop :=
  max_digits = 0%nat \/ (n <= max_digits)%nat.

Definition demo_diff : str :=
  lit "@@ -1,2 +1,4 @@" ++ [10] ++ lit "line1" ++ [10] ++ lit "+line2"
  ++ [10] ++ lit "+line3" ++ [10] ++ lit "-line4".

(** A diff whose only hunk header gives a start line of 4301
    digits. *)
Definition oversized_diff : str :=
  lit "@@ -1 +" ++ replicate 4301 49 ++ lit " @@" ++ [10] ++ lit "+added".

End Positions.

(** ** Splitting a review into comments *)

Module Splitter.
Import Py Re.

(** One literal letter under [re.IGNORECASE]: both cases, and for
    [i] and [s] the extra code points Python folds onto them. *)
Definition icase (c : Z) : re :=
  let lower := if (65 <=? c) && (c <=? 90) then c + 32 else c in
  let upper := if (97 <=? lower) && (lower <=? 122) then lower - 32 else lower in
  let extra :=
    if lower =? 105 then [304; 305]
    else if lower =? 115 then [383]
    else if lower =? 107 then [8490]
    else [] in
  Cls (fun x => (x =? lower) || (x =? upper) || inb x extra).

Definition itext (s : str) : re := seqs (map icase s).

(** [^\s*Auto Review Result[:：]\s*] with [re.IGNORECASE] *)
Definition marker_re : re :=
  seqs [ Bol; star isspace; itext (lit "Auto Review Result");
         oneof [58; 65306]; star isspace ].

Definition score_detail : str := [35780; 20998; 26126; 32454].
Definition score_total : str := [24635; 20998].

(** [(^|\n)\s*#{0,6}\s*(评分明细|总分)] *)
Definition score_re : re :=
  seqs [ Grp 1 (Alt Bol (chr 10)); star isspace;
         Rep (Z.eqb 35) 0 (Some 6%nat); star isspace;
         Grp 2 (Alt (text score_detail) (text score_total)) ].

(** [^[-*+]\s+(.+)$] *)
Definition bullet_re : re :=
  seqs [ Bol; oneof [45; 42; 43]; plus isspace; Grp 1 (plus any); Eol ].

(** [^\d+[\.、\)]\s*(.+)$] *)
Definition ordered_re : re :=
  seqs [ Bol; plus isdigit; oneof [46; 12289; 41]; star isspace;
         Grp 1 (plus any); Eol ].

(** [\n\s*\n] *)
Definition blank_re : re := seqs [ chr 10; star isspace; chr 10 ].

(** [\s+] *)
Definition spaces_re : re := plus isspace.

Definition str_eqb (a b : str) : bool := bool_decide (a = b).

(** The three section titles that never become a comment:
    问题描述和优化建议, 问题描述, 优化建议. *)
Definition section_titles : list str :=
  [ [38382; 39064; 25551; 36848; 21644; 20248; 21270; 24314; 35758];
    [38382; 39064; 25551; 36848];
    [20248; 21270; 24314; 35758] ].

(** The list item a stripped line carries, if it is a bullet or an
    ordered item. *)
Definition list_item (line : str) : option str :=
  match match_ bullet_re line with
  | Some m => Some (strip (default [] (group 1 m)))
  | None =>
      match match_ ordered_re line with
      | Some m => Some (strip (default [] (group 1 m)))
      | None => None
      end
  end.

(** The text after the marker line is removed and the score section
    is cut off. *)
Definition review_body (review_result : str) : str :=
  sub marker_re [] (strip review_result).

Definition cut_score_section (text : str) : str :=
  match search score_re text with
  | Some (start, _) => strip (take start text)
  | None => text
  end.

Definition stripped_lines (text : str) : list str :=
  omap (fun line => match strip line with [] => None | l => Some l end)
       (splitlines text).

Definition paragraph_comments (text : str) : list str :=
  omap (fun block =>
          let item := strip block in
          match item with
          | [] => None
          | _ =>
              if startswith (lit "#") item then None
              else if existsb (str_eqb item) section_titles then None
              else Some (sub spaces_re (lit " ") item)
          end)
       (split blank_re text).

Definition _split_review_to_comments (review_result : str) : list str :=
  match review_result with
  | [] => []
  | _ =>
      let text := sub marker_re [] (strip review_result) in
      match text with
      | [] => []
      | _ =>
          let text := cut_score_section text in
          let lines := stripped_lines text in
          let bullet_items := omap list_item lines in
          match bullet_items with
          | _ :: _ => bullet_items
          | [] => paragraph_comments text
          end
      end
  end.

(** The lines the list-item extraction looks at. *)
Definition review_lines (review_result : str) : list str :=
  stripped_lines (cut_score_section (review_body review_result)).

(** Every whitespace character is a plain space followed by a
    character that is not whitespace. *)
Fixpoint spaced (s : str) : bool :=
  match s with
  | [] => true
  | c :: s' =>
      (if isspace c then
         (c =? 32) && match s' with [] => false | d :: _ => negb (isspace d) end
       else true)
      && spaced s'
  end.

(** A comment in normal form: not empty, no whitespace at either
    end, words separated by single plain spaces. *)
Definition single_spaced (s : str) : bool :=
  match s with
  | [] => false
  | c :: _ => negb (isspace c) && spaced s
  end.

(** The text of a list item after its marker: it starts with a
    character that is not whitespace and has no line feed. *)
Definition item_text (rest : str) : Prop :=
  match rest with
  | [] => False
  | c :: _ => isspace c = false
  end /\ Forall (fun c => any c = true) rest.

Definition whitespace (ws : str) : Prop := Forall (fun c => isspace c = true) ws.

(** A bullet line: [-], [*] or [+], whitespace, text; the item is
    the text. *)
Definition bullet_item (line item : str) : Prop :=
  exists c ws rest,
    line = c :: ws ++ rest /\ inb c [45; 42; 43] = true /\
    ws <> [] /\ whitespace ws /\ item_text rest /\ item = strip rest.

(** An ordered line: decimal digits, one of [.], [、] and [)],
    optional whitespace, text; the item is the text. *)
Definition ordered_item (line item : str) : Prop :=
  exists ds m ws rest,
    line = ds ++ m :: ws ++ rest /\
    (ds <> [] /\ Forall (fun c => isdigit c = true) ds) /\
    inb m [46; 12289; 41] = true /\
    whitespace ws /\ item_text rest /\ item = strip rest.

(** The list items of a sequence of lines: the item of every line
    that is a bullet or an ordered line, in the order of the lines;
    the other lines give nothing. *)
Inductive list_items : list str -> list str -> Prop :=
| items_nil : list_items [] []
| items_item line item lines items :
    bullet_item line item \/ ordered_item line item ->
    list_items lines items -> list_items (line :: lines) (item :: items)
| items_skip line lines items :
    (forall item, ~ (bullet_item line item \/ ordered_item line item)) ->
    list_items lines items -> list_items (line :: lines) items.

(** A comment that none of the splitter's rules applies to. *)
Definition plain_comment (s : str) : Prop :=
  single_spaced s = true /\
  match_ marker_re s = None /\
  search score_re s = None /\
  list_item s = None /\
  startswith (lit "#") s = false /\
  existsb (str_eqb s) section_titles = false.

(** The ends of a stripped string. *)
Definition trimmed (s : str) : Prop :=
  match s with [] => True | c :: _ => isspace c = false end /\
  match rev s with [] => True | c :: _ => isspace c = false end.

End Splitter.

(** ** Remote calls

    Every request the handlers issue is recorded, in order, together
    with the pauses between retries.  The answer of the server may
    depend on everything that happened before.  A URL is kept as its
    template and the values formatted into it. *)

Module Remote.
Import Py Json.

Inductive endpoint :=
| PullFiles (repo number : json)
| PullCommits (repo number : json)
| IssueComments (repo number : json)
| PullComments (repo number : json)
| ProtectedBranches (repo : json)
| Commit (repo sha : json)
| Compare (repo base head : json)
| CommitComments (repo sha : json).

Inductive method := GET | POST.

Record request := {
  meth : method;
  target : endpoint;
  token : str;
  payload : option json
}.

(** [body] is what [response.json()] decodes; [None] when the body
    is not JSON, in which case the call raises [ValueError]. *)
Record response := {
  status_code : Z;
  body : option json
}.

Inductive event :=
| Call (r : request)
| Sleep (secs : Z).

Record env := {
  server : list event -> request -> response;
  environ : gmap string str;
  int_max_str_digits : nat
}.

Definition M (A : Type) : Type := env -> list event -> res A * list event.

Definition ret {A} (a : A) : M A := fun _ tr => (Ok a, tr).

Definition bind {A B} (m : M A) (f : A -> M B) : M B :=
  fun e tr =>
    match m e tr with
    | (Ok a, tr') => f a e tr'
    | (Raise x, tr') => (Raise x, tr')
    end.

Definition lift {A} (r : res A) : M A := fun _ tr => (r, tr).

Definition send (r : request) : M response :=
  fun e tr => (Ok (server e tr r), tr ++ [Call r]).

Definition sleep (secs : Z) : M unit :=
  fun _ tr => (Ok tt, tr ++ [Sleep secs]).

Definition getenv (k : string) (dflt : str) : M str :=
  fun e tr => (Ok (default dflt (environ e !! k)), tr).

Definition max_str_digits : M nat :=
  fun e tr => (Ok (int_max_str_digits e), tr).

Definition requests_get (t : endpoint) (tok : str) : M response :=
  send {| meth := GET; target := t; token := tok; payload := None |}.

Definition requests_post (t : endpoint) (tok : str) (data : json) : M response :=
  send {| meth := POST; target := t; token := tok; payload := Some data |}.

(** [response.json()] *)
Definition json_of (r : response) : res json :=
  match body r with
  | Some j => Ok j
  | None => Raise ValueError
  end.

Definition is_call (ev : event) : bool :=
  match ev with Call _ => true | Sleep _ => false end.

Definition calls (tr : list event) : list request :=
  omap (fun ev => match ev with Call r => Some r | Sleep _ => None end) tr.

Definition is_compare (r : request) : bool :=
  match target r with Compare _ _ _ => true | _ => false end.

End Remote.

Declare Scope remote_scope.
Delimit Scope remote_scope with remote.
Notation "'let*' x ':=' c 'in' k" :=
  (Remote.bind c (fun x => k))
  (at level 10, x pattern, c at level 100, k at level 200) : remote_scope.
Notation "c ';;' k" :=
  (Remote.bind c (fun _ => k))
  (at level 100, k at level 200, right associativity) : remote_scope.

(** ** Filtering changes *)

Module Changes.
Import Py Re Json Remote.

(** [@@ -\d+,\d+ \+0,0 @@] *)
Definition deleted_header_re : re :=
  seqs [ text (lit "@@ -"); plus isdigit; chr 44; plus isdigit;
         text (lit " +0,0 @@") ].

Definition extensions_key : string := "SUPPORTED_EXTENSIONS".

Definition supported_extensions (e : env) : list str :=
  split_on 44 (default (lit ".java,.py,.php") (environ e !! extensions_key)).

(** [status == 'removed'] *)
Definition is_removed (status : json) : bool :=
  match status with
  | JStr s => bool_decide (s = lit "removed")
  | _ => false
  end.

(** Whether the first loop of [filter_changes] skips the change. *)
Definition is_deleted_change (change : json) : res bool :=
  rbind (get change "status") (fun status =>
  if is_removed status then Ok true
  else
    rbind (get_default change "diff" (JStr [])) (fun diff =>
    if truthy diff then
      match diff with
      | JStr d =>
          match match_ deleted_header_re d with
          | Some _ =>
              Ok (forallb (fun line => startswith (lit "-") line
                                       || match line with [] => true | _ => false end)
                          (tail (split_on 10 d)))
          | None => Ok false
          end
      | _ => Raise TypeError
      end
    else Ok false)).

Fixpoint not_deleted (changes : list json) : res (list json) :=
  match changes with
  | [] => Ok []
  | change :: rest =>
      rbind (is_deleted_change change) (fun deleted =>
      rbind (not_deleted rest) (fun kept =>
      Ok (if deleted then kept else change :: kept)))
  end.

(** The condition of the comprehension. *)
Definition has_supported_extension (exts : list str) (item : json) : res bool :=
  match exts with
  | [] => Ok false
  | _ =>
      rbind (get_default item "new_path" (JStr [])) (fun new_path =>
      match new_path with
      | JStr p => Ok (existsb (fun ext => endswith ext p) exts)
      | _ => Raise AttributeError
      end)
  end.

(** The dictionary the comprehension builds. *)
Definition project (item : json) : res json :=
  rbind (get_default item "diff" (JStr [])) (fun diff =>
  rbind (match item with
         | JObj m => match m !! "new_path"%string with
                     | Some v => Ok v
                     | None => Raise KeyError
                     end
         | _ => Raise TypeError
         end) (fun new_path =>
  rbind (get_default item "additions" (JInt 0)) (fun additions =>
  rbind (get_default item "deletions" (JInt 0)) (fun deletions =>
  Ok (obj [("diff", diff); ("new_path", new_path);
           ("additions", additions); ("deletions", deletions)])%string)))).

Fixpoint by_extension (exts : list str) (items : list json) : res (list json) :=
  match items with
  | [] => Ok []
  | item :: rest =>
      rbind (has_supported_extension exts item) (fun keep =>
      if keep then
        rbind (project item) (fun projected =>
        rbind (by_extension exts rest) (fun others => Ok (projected :: others)))
      else by_extension exts rest)
  end.

Definition filter_changes (e : env) (changes : list json) : res (list json) :=
  rbind (not_deleted changes) (fun not_deleted_changes =>
  by_extension (supported_extensions e) not_deleted_changes).

(** A change that passes both stages of the filter. *)
Definition kept (exts : list str) (change : json) : bool :=
  match is_deleted_change change, has_supported_extension exts change with
  | Ok false, Ok true => true
  | _, _ => false
  end.

(** A file entry the filter can read: a dictionary whose [new_path]
    is a string and whose [diff], when there is one, is a string. *)
Definition readable_change (c : json) : Prop :=
  exists (m : gmap string json) p,
    c = JObj m /\ m !! "new_path"%string = Some (JStr p) /\
    (m !! "diff"%string = None \/ exists d, m !! "diff"%string = Some (JStr d)).

End Changes.

(** ** The pull-request handler *)

Module PullRequestHandler.
Import Py Re Json Positions Splitter Remote.
Local Open Scope remote_scope.

Record handler := {
  pull_request_number : json;
  webhook_data : json;
  github_token : str;
  github_url : str;
  event_type : str;
  repo_full_name : json;
  action : json
}.

(** [__init__], [parse_event_type] and [parse_pull_request_event]. *)
Definition init (webhook_data : json) (github_token github_url : str) : res handler :=
  rbind (get_default webhook_data "pull_request" (JObj ∅)) (fun pr =>
  rbind (get pr "number") (fun number =>
  rbind (get_default webhook_data "repository" (JObj ∅)) (fun repo =>
  rbind (get repo "full_name") (fun full_name =>
  rbind (get webhook_data "action") (fun act =>
  Ok {| pull_request_number := number;
        webhook_data := webhook_data;
        github_token := github_token;
        github_url := github_url;
        event_type := lit "pull_request";
        repo_full_name := full_name;
        action := act |}))))).

Definition convert_file (file : json) : res json :=
  rbind (get file "filename") (fun old_path =>
  rbind (get file "filename") (fun new_path =>
  rbind (get_default file "patch" (JStr [])) (fun diff =>
  rbind (get_default file "additions" (JInt 0)) (fun additions =>
  rbind (get_default file "deletions" (JInt 0)) (fun deletions =>
  Ok (obj [("old_path", old_path); ("new_path", new_path); ("diff", diff);
           ("additions", additions); ("deletions", deletions)])%string))))).

(** The loop [for file in files] over a truthy decoded body: a list
    gives its elements; a non-empty string or dictionary gives
    strings, on which [.get] raises; other values are not iterable. *)
Definition convert_files (files : json) : res (list json) :=
  match files with
  | JArr l => rmapM convert_file l
  | JStr _ | JObj _ => Raise AttributeError
  | JNull | JBool _ | JInt _ => Raise TypeError
  end.

Definition max_retries : nat := 3.
Definition retry_delay : Z := 10.

(** The body of [for attempt in range(max_retries)], with the
    number of attempts left. *)
Fixpoint changes_attempts (h : handler) (left : nat) : M (list json) :=
  match left with
  | O => ret []
  | S left' =>
      let* response :=
        requests_get (PullFiles (repo_full_name h) (pull_request_number h))
                     (github_token h) in
      if status_code response =? 200 then
        let* files := lift (json_of response) in
        if truthy files then lift (convert_files files)
        else sleep retry_delay ;; changes_attempts h left'
      else ret []
  end.

Definition get_pull_request_changes (h : handler) : M (list json) :=
  if negb (str_eqb (event_type h) (lit "pull_request")) then ret []
  else changes_attempts h max_retries.

Definition _add_pull_request_issue_comment (h : handler) (review_result : str) : M unit :=
  let* response :=
    requests_post (IssueComments (repo_full_name h) (pull_request_number h))
                  (github_token h)
                  (obj [("body"%string, JStr review_result)]) in
  ret tt.

Definition inline_payload (comment : str) (head_commit_id : json) (p : position) : json :=
  obj [("body", JStr comment); ("commit_id", head_commit_id);
       ("path", path p); ("line", JInt (line p));
       ("side", JStr (lit "RIGHT"))]%string.

(** [for index, comment in enumerate(comments)], from the given
    index and success count. *)
Fixpoint post_inline (h : handler) (head_commit_id : json) (positions : list position)
    (index : nat) (comments : list str) (success_count : Z) : M Z :=
  match comments with
  | [] => ret success_count
  | comment :: rest =>
      let* position :=
        lift (match positions with
              | [] => Raise ZeroDivisionError
              | _ =>
                  match positions !! (index mod length positions)%nat with
                  | Some p => Ok p
                  | None => Raise IndexError
                  end
              end) in
      let* response :=
        requests_post (PullComments (repo_full_name h) (pull_request_number h))
                      (github_token h)
                      (inline_payload comment head_commit_id position) in
      post_inline h head_commit_id positions (S index) rest
        (if status_code response =? 201 then success_count + 1 else success_count)
  end.

Definition max_count_key : string := "GITHUB_PR_REVIEW_COMMENT_MAX_COUNT".

(** [int(os.environ.get(..., '20'))] with the fallback on [ValueError]. *)
Definition max_comments_of (limit : nat) (value : str) : Z :=
  match int_of_str limit value with
  | Some n => n
  | None => 20
  end.

(** [comments[:max(1, max_comments)]] *)
Definition cap_comments (max_comments : Z) (comments : list str) : list str :=
  take (Z.to_nat (Z.max 1 max_comments)) comments.

(** The comment list before the cap. *)
Definition review_comments (review_result : str) : list str :=
  match _split_review_to_comments review_result, review_result with
  | [], _ :: _ => [strip review_result]
  | comments, _ => comments
  end.

Definition head_commit_id_of (webhook_data : json) : res json :=
  rbind (get_default webhook_data "pull_request" (JObj ∅)) (fun pr =>
  rbind (get_default pr "head" (JObj ∅)) (fun head =>
  get head "sha")).

Definition add_pull_request_notes (h : handler) (review_result : str)
    (changes : option (list json)) : M unit :=
  let comments := review_comments review_result in
  match comments with
  | [] => ret tt
  | _ =>
      let* value := getenv max_count_key (lit "20") in
      let* limit := max_str_digits in
      let max_comments := max_comments_of limit value in
      let comments := cap_comments max_comments comments in
      let* head_commit_id := lift (head_commit_id_of (webhook_data h)) in
      let* positions := lift (_extract_review_positions limit (default [] changes)) in
      if negb (truthy head_commit_id) || bool_decide (positions = []) then
        _add_pull_request_issue_comment h review_result
      else
        let* success_count := post_inline h head_commit_id positions 0 comments 0 in
        if success_count =? 0 then _add_pull_request_issue_comment h review_result
        else ret tt
  end.

(** A file entry as the provider lists it: a dictionary that does
    not use the keys of the converted shape. *)
Definition raw_file (file : json) : Prop :=
  exists m : gmap string json,
    file = JObj m /\
    m !! "new_path"%string = None /\
    m !! "old_path"%string = None /\
    m !! "diff"%string = None.

(** The conversion of one provider commit by
    [get_pull_request_commits]. *)
Definition convert_commit (commit : json) : res json :=
  rbind (get commit "sha") (fun sha =>
  rbind (get_default commit "commit" (JObj ∅)) (fun inner =>
  rbind (get_default inner "message" (JStr [])) (fun message =>
  rbind (match message with
         | JStr m => Ok (JStr (default [] (head (split_on 10 m))))
         | _ => Raise AttributeError
         end) (fun title =>
  rbind (get_default inner "author" (JObj ∅)) (fun author =>
  rbind (get author "name") (fun author_name =>
  rbind (get author "email") (fun author_email =>
  rbind (get author "date") (fun created_at =>
  rbind (get commit "html_url") (fun web_url =>
  Ok (obj [("id", sha); ("title", title); ("message", message);
           ("author_name", author_name); ("author_email", author_email);
           ("created_at", created_at); ("web_url", web_url)])%string))))))))).

Definition get_pull_request_commits (h : handler) : M (list json) :=
  if negb (str_eqb (event_type h) (lit "pull_request")) then ret []
  else
    let* response :=
      requests_get (PullCommits (repo_full_name h) (pull_request_number h))
                   (github_token h) in
    if status_code response =? 200 then
      let* github_commits := lift (json_of response) in
      lift (for_each_dict convert_commit github_commits)
    else ret [].

(** The title of a commit: its message up to the first line feed. *)
Definition title_of (message title : str) : Prop :=
  exists rest,
    message = title ++ rest /\
    Forall (fun c => c <> 10) title /\
    (rest = [] \/ head rest = Some 10).

End PullRequestHandler.

(** ** The push handler *)

Module PushHandler.
Import Py Json Remote.
Local Open Scope remote_scope.

Record handler := {
  webhook_data : json;
  github_token : str;
  github_url : str;
  event_type : str;
  repo_full_name : json;
  branch_name : str;
  commit_list : json
}.

(** [__init__], [parse_event_type] and [parse_push_event]. *)
Definition init (webhook_data : json) (github_token github_url : str) : res handler :=
  rbind (get_default webhook_data "repository" (JObj ∅)) (fun repo =>
  rbind (get repo "full_name") (fun full_name =>
  rbind (get_default webhook_data "ref" (JStr [])) (fun ref =>
  rbind (match ref with
         | JStr r => Ok (replace (lit "refs/heads/") [] r)
         | _ => Raise AttributeError
         end) (fun branch =>
  rbind (get_default webhook_data "commits" (JArr [])) (fun commits =>
  Ok {| webhook_data := webhook_data;
        github_token := github_token;
        github_url := github_url;
        event_type := lit "push";
        repo_full_name := full_name;
        branch_name := branch;
        commit_list := commits |}))))).

(** [x[0]] on a truthy value. *)
Definition first_item (x : json) : res json :=
  match x with
  | JArr (a :: _) => Ok a
  | JArr [] => Raise IndexError
  | JStr (c :: _) => Ok (JStr [c])
  | JStr [] => Raise IndexError
  | JObj _ => Raise KeyError
  | JNull | JBool _ | JInt _ => Raise TypeError
  end.

Definition get_parent_commit_id (h : handler) (commit_id : json) : M json :=
  let* response :=
    requests_get (Commit (repo_full_name h) commit_id) (github_token h) in
  if status_code response =? 200 then
    let* j := lift (json_of response) in
    let* parents := lift (get j "parents") in
    if truthy parents then
      let* parent := lift (first_item parents) in
      lift (get_default parent "sha" (JStr []))
    else ret (JStr [])
  else ret (JStr []).

Definition convert_compare_file (file : json) : res json :=
  rbind (get file "filename") (fun old_path =>
  rbind (get file "filename") (fun new_path =>
  rbind (get_default file "patch" (JStr [])) (fun diff =>
  rbind (get_default file "status" (JStr [])) (fun status =>
  rbind (get_default file "additions" (JInt 0)) (fun additions =>
  rbind (get_default file "deletions" (JInt 0)) (fun deletions =>
  Ok (obj [("old_path", old_path); ("new_path", new_path); ("diff", diff);
           ("status", status); ("additions", additions);
           ("deletions", deletions)])%string)))))).

(** The loop [for file in files] over whatever [.get('files', [])]
    gave: empty strings and dictionaries give no iteration. *)
Definition convert_compare_files (files : json) : res (list json) :=
  match files with
  | JArr l => rmapM convert_compare_file l
  | JStr [] => Ok []
  | JStr (_ :: _) => Raise AttributeError
  | JObj m => if bool_decide (m = ∅) then Ok [] else Raise AttributeError
  | JNull | JBool _ | JInt _ => Raise TypeError
  end.

Definition repository_compare (h : handler) (base head : json) : M (list json) :=
  let* response :=
    requests_get (Compare (repo_full_name h) base head) (github_token h) in
  if status_code response =? 200 then
    let* j := lift (json_of response) in
    let* files := lift (get_default j "files" (JArr [])) in
    lift (convert_compare_files files)
  else ret [].

(** The loop [for commit in self.commit_list] of the per-commit
    fallback, over the elements of a list. *)
Fixpoint changes_from_commits (h : handler) (commits : list json) (changes : list json)
    : M (list json) :=
  match commits with
  | [] => ret changes
  | commit :: rest =>
      let* commit_id := lift (get commit "id") in
      if truthy commit_id then
        let* parent_id := get_parent_commit_id h commit_id in
        if truthy parent_id then
          let* commit_changes := repository_compare h parent_id commit_id in
          changes_from_commits h rest (changes ++ commit_changes)
        else changes_from_commits h rest changes
      else changes_from_commits h rest changes
  end.

(** Iterating a truthy commit list: only a list has elements on
    which [.get] works. *)
Definition commits_to_iterate (commit_list : json) : res (list json) :=
  match commit_list with
  | JArr l => Ok l
  | JStr _ | JObj _ => Raise AttributeError
  | JNull | JBool _ | JInt _ => Raise TypeError
  end.

Definition get_push_changes (h : handler) : M (list json) :=
  if negb (bool_decide (event_type h = lit "push")) then ret []
  else if negb (truthy (commit_list h)) then ret []
  else
    let* before := lift (get_default (webhook_data h) "before" (JStr [])) in
    let* after := lift (get_default (webhook_data h) "after" (JStr [])) in
    if truthy before && truthy after then
      let* created := lift (get_default (webhook_data h) "created" (JBool false)) in
      if truthy created then
        let* first := lift (first_item (commit_list h)) in
        let* first_commit_id := lift (get first "id") in
        if truthy first_commit_id then
          let* parent_commit_id := get_parent_commit_id h first_commit_id in
          if truthy parent_commit_id then repository_compare h parent_commit_id after
          else repository_compare h before after
        else repository_compare h before after
      else
        let* deleted := lift (get_default (webhook_data h) "deleted" (JBool false)) in
        if truthy deleted then ret []
        else repository_compare h before after
    else
      let* commits := lift (commits_to_iterate (commit_list h)) in
      changes_from_commits h commits [].

Definition commit_info (commit : json) : res json :=
  rbind (get commit "message") (fun message =>
  rbind (get_default commit "author" (JObj ∅)) (fun author =>
  rbind (get author "name") (fun name =>
  rbind (get commit "timestamp") (fun timestamp =>
  rbind (get commit "url") (fun url =>
  Ok (obj [("message", message); ("author", name);
           ("timestamp", timestamp); ("url", url)])%string))))).

Definition get_push_commits (h : handler) : res (list json) :=
  if negb (bool_decide (event_type h = lit "push")) then Ok []
  else for_each_dict commit_info (commit_list h).

Definition add_push_notes (h : handler) (message : str) : M unit :=
  if negb (truthy (commit_list h)) then ret tt
  else
    let* last_commit := lift (last_item (commit_list h)) in
    let* last_commit_id := lift (get last_commit "id") in
    if negb (truthy last_commit_id) then ret tt
    else
      let* response :=
        requests_post (CommitComments (repo_full_name h) last_commit_id)
                      (github_token h)
                      (obj [("body"%string, JStr message)]) in
      ret tt.

End PushHandler.

(** ** What a delivery looks like from outside

    The requests [add_pull_request_notes] is expected to issue, written
    without the monad, to state its behaviour against. *)

Module Delivery.
Import Py Json Positions Splitter Remote PullRequestHandler.

(** The aggregate comment on the review thread. *)
Definition issue_request (h : handler) (review_result : str) : request :=
  {| meth := POST;
     target := IssueComments (repo_full_name h) (pull_request_number h);
     token := github_token h;
     payload := Some (obj [("body"%string, JStr review_result)]) |}.

(** One inline comment at one position: the comment as [body], the
    head commit, the path and the line of the position, on the right
    side of the diff. *)
Definition inline_request (h : handler) (head_commit_id : json)
    (cp : str * position) : request :=
  {| meth := POST;
     target := PullComments (repo_full_name h) (pull_request_number h);
     token := github_token h;
     payload := Some (JObj (list_to_map
                  [("body", JStr (fst cp)); ("commit_id", head_commit_id);
                   ("path", path (snd cp)); ("line", JInt (line (snd cp)));
                   ("side", JStr (lit "RIGHT"))]%string)) |}.



(** A file of the listing in the shape the review works on: the
    file name as both paths, the patch as diff, and the two counts. *)
Definition change_of_file (file : gmap string json) : json :=
  JObj (list_to_map
    [("old_path", default JNull (file !! "filename"));
     ("new_path", default JNull (file !! "filename"));
     ("diff", default (JStr []) (file !! "patch"));
     ("additions", default (JInt 0) (file !! "additions"));
     ("deletions", default (JInt 0) (file !! "deletions"))]%string).

(** Comments paired with positions, the comment at index [i] with
    the position at index [i mod length positions], counting from
    [index]. *)
Fixpoint assigned (positions : list position) (index : nat) (comments : list str)
    : list (str * position) :=
  match comments with
  | [] => []
  | c :: rest =>
      match positions !! (index mod length positions)%nat with
      | Some p => (c, p) :: assigned positions (S index) rest
      | None => []
      end
  end.

(** Number of requests of the list that the server answers with
    status 201, when they are sent one after the other. *)
Fixpoint successes (e : env) (tr : list event) (reqs : list request) : Z :=
  match reqs with
  | [] => 0
  | r :: rest =>
      (if status_code (server e tr r) =? 201 then 1 else 0)
      + successes e (tr ++ [Call r]) rest
  end.

(** The configured maximum number of inline comments. *)
Definition configured_max (e : env) : Z :=
  match environ e !! max_count_key with
  | Some value =>
      match int_of_str (int_max_str_digits e) value with
      | Some n => n
      | None => 20
      end
  | None => 20
  end.

(** The comments that are delivered: the split review, capped. *)
Definition delivered_comments (e : env) (review_result : str) : list str :=
  cap_comments (configured_max e) (review_comments review_result).

Definition inline_requests (e : env) (h : handler) (review_result : str)
    (head_commit_id : json) (positions : list position) : list request :=
  map (inline_request h head_commit_id)
      (assigned positions 0 (delivered_comments e review_result)).


(** The events recorded after the first [n]. *)
Definition issued (n : nat) (tr : list event) : list request := calls (drop n tr).

(** The list-files request of a pull request. *)
Definition files_request (h : handler) : request :=
  {| meth := GET;
     target := PullFiles (repo_full_name h) (pull_request_number h);
     token := github_token h;
     payload := None |}.

(** What [k] empty answers leave in the record: the request and the
    pause, [k] times. *)
Definition retries (h : handler) (k : nat) : list event :=
  concat (replicate k [Call (files_request h); Sleep 10]).

(** A successful answer without files. *)
Definition empty_success (r : response) : Prop :=
  status_code r = 200 /\ exists j, body r = Some j /\ truthy j = false.


Definition is_issue_comment (r : request) : bool :=
  match target r with IssueComments _ _ => true | _ => false end.

End Delivery.

(** ** What the push handler sends *)

Module PushRequests.
Import Py Json Remote PushHandler.

(** The single-commit lookup. *)
Definition parent_request (h : handler) (commit_id : json) : request :=
  {| meth := GET;
     target := Commit (repo_full_name h) commit_id;
     token := github_token h;
     payload := None |}.

(** The comparison of two refs. *)
Definition compare_request (h : handler) (base head : json) : request :=
  {| meth := GET;
     target := Compare (repo_full_name h) base head;
     token := github_token h;
     payload := None |}.

(** The comment on a commit. *)
Definition note_request (h : handler) (commit_id : json) (message : str) : request :=
  {| meth := POST;
     target := CommitComments (repo_full_name h) commit_id;
     token := github_token h;
     payload := Some (obj [("body"%string, JStr message)]) |}.

(** A request that only reads: a lookup of a commit or a
    comparison. *)
Definition is_read (r : request) : Prop :=
  meth r = GET /\
  match target r with
  | Commit _ _ | Compare _ _ _ => True
  | _ => False
  end.

(** Number of commits of a push. *)
Definition commit_count (commit_list : json) : nat :=
  match commit_list with
  | JArr l => length l
  | _ => 0
  end.

(** The record [tr'] extends [tr] by at most [n] requests, all of
    them reads. *)
Definition reads_at_most (n : nat) (tr tr' : list event) : Prop :=
  exists new,
    tr' = tr ++ map Call new /\ (length new <= n)%nat /\ Forall is_read new.

End PushRequests.

(** ** Sample data, after the repository's tests *)

Module Demo.
Import Py Json Positions Remote.

Definition pr_webhook : json :=
  obj [("repository", obj [("full_name", JStr (lit "owner/repo"))]);
       ("pull_request",
        obj [("number", JInt 99);
             ("head", obj [("sha", JStr (lit "head_commit_sha"))])]);
       ("action", JStr (lit "opened"))]%string.

Definition pr_handler : PullRequestHandler.handler :=
  {| PullRequestHandler.pull_request_number := JInt 99;
     PullRequestHandler.webhook_data := pr_webhook;
     PullRequestHandler.github_token := lit "token";
     PullRequestHandler.github_url := lit "https://github.com";
     PullRequestHandler.event_type := lit "pull_request";
     PullRequestHandler.repo_full_name := JStr (lit "owner/repo");
     PullRequestHandler.action := JStr (lit "opened") |}.



(** The same event with [head: null]. *)
Definition pr_webhook_null_head : json :=
  obj [("repository", obj [("full_name", JStr (lit "owner/repo"))]);
       ("pull_request", obj [("number", JInt 99); ("head", JNull)]);
       ("action", JStr (lit "opened"))]%string.

Definition pr_handler_null_head : PullRequestHandler.handler :=
  {| PullRequestHandler.pull_request_number := JInt 99;
     PullRequestHandler.webhook_data := pr_webhook_null_head;
     PullRequestHandler.github_token := lit "token";
     PullRequestHandler.github_url := lit "https://github.com";
     PullRequestHandler.event_type := lit "pull_request";
     PullRequestHandler.repo_full_name := JStr (lit "owner/repo");
     PullRequestHandler.action := JStr (lit "opened") |}.

Definition changes : list json :=
  [obj [("new_path", JStr (lit "biz/demo.py")); ("diff", JStr demo_diff)]%string].

Definition positions : list position :=
  [ {| path := JStr (lit "biz/demo.py"); line := 2 |};
    {| path := JStr (lit "biz/demo.py"); line := 3 |} ].

(** Two ordered items after the marker line. *)
Definition review : str :=
  lit "Auto Review Result:" ++ [10] ++ lit "1. first" ++ [10] ++ lit "2. second".


(** A server that answers every request with the same status and
    body, and an environment with the given variables. *)
Definition constant_env (status : Z) (b : option json) (vars : list (string * str)) : env :=
  {| server := fun _ _ => {| status_code := status; body := b |};
     environ := list_to_map vars;
     int_max_str_digits := 4300 |}.

(** A server that answers the request number [n] (from zero) with
    the [n]-th response of a script, and with status 500 afterwards. *)
Definition scripted_env (script : list response) : env :=
  {| server := fun tr _ =>
       default {| status_code := 500; body := None |}
               (script !! length (calls tr));
     environ := ∅;
     int_max_str_digits := 4300 |}.

(** The files of the pull request as the list-files call returns
    them, an answer carrying them, and an answer without files. *)
Definition files : json :=
  JArr [obj [("filename", JStr (lit "biz/demo.py")); ("patch", JStr demo_diff);
             ("additions", JInt 2); ("deletions", JInt 1)]%string].

Definition files_response : response :=
  {| status_code := 200; body := Some files |}.

Definition empty_response : response :=
  {| status_code := 200; body := Some (JArr []) |}.

(** A push that carries [deleted: true] and one commit, but neither
    [before] nor [after]. *)
Definition push_fields : gmap string json :=
  list_to_map
    [("repository", obj [("full_name", JStr (lit "owner/repo"))]);
     ("ref", JStr (lit "refs/heads/main"));
     ("deleted", JBool true);
     ("commits", JArr [obj [("id", JStr (lit "sample_commit_id"))]])]%string.

Definition push_webhook : json := JObj push_fields.

Definition push_handler : PushHandler.handler :=
  {| PushHandler.webhook_data := push_webhook;
     PushHandler.github_token := lit "";
     PushHandler.github_url := lit "https://github.com";
     PushHandler.event_type := lit "push";
     PushHandler.repo_full_name := JStr (lit "owner/repo");
     PushHandler.branch_name := lit "main";
     PushHandler.commit_list := JArr [obj [("id", JStr (lit "sample_commit_id"))]%string] |}.

(** A deleted branch as the provider reports it: both refs present,
    no commits. *)
Definition deleted_fields : gmap string json :=
  list_to_map
    [("repository", obj [("full_name", JStr (lit "owner/repo"))]);
     ("ref", JStr (lit "refs/heads/old"));
     ("before", JStr (lit "4f2a"));
     ("after", JStr (lit "0000"));
     ("deleted", JBool true);
     ("commits", JArr [obj [("id", JStr (lit "sample_commit_id"))]])]%string.

Definition deleted_webhook : json := JObj deleted_fields.

Definition deleted_handler : PushHandler.handler :=
  {| PushHandler.webhook_data := deleted_webhook;
     PushHandler.github_token := lit "";
     PushHandler.github_url := lit "https://github.com";
     PushHandler.event_type := lit "push";
     PushHandler.repo_full_name := JStr (lit "owner/repo");
     PushHandler.branch_name := lit "old";
     PushHandler.commit_list := JArr [obj [("id", JStr (lit "sample_commit_id"))]%string] |}.

(** The same event as the provider sends it, without commits. *)
Definition deleted_handler_no_commits : PushHandler.handler :=
  {| PushHandler.webhook_data := deleted_webhook;
     PushHandler.github_token := lit "";
     PushHandler.github_url := lit "https://github.com";
     PushHandler.event_type := lit "push";
     PushHandler.repo_full_name := JStr (lit "owner/repo");
     PushHandler.branch_name := lit "old";
     PushHandler.commit_list := JArr [] |}.

(** A server that knows the parent of every commit and answers every
    comparison with the sample files. *)
Definition push_env : env :=
  {| server := fun _ r =>
       match target r with
       | Commit _ _ =>
           {| status_code := 200;
              body := Some (obj [("parents",
                       JArr [obj [("sha", JStr (lit "parent_commit_sha"))]])]%string) |}
       | Compare _ _ _ =>
           {| status_code := 200; body := Some (obj [("files"%string, files)]) |}
       | _ => {| status_code := 404; body := None |}
       end;
     environ := ∅;
     int_max_str_digits := 4300 |}.

(** A diff that removes both lines of a file. *)
Definition removal_diff : str :=
  lit "@@ -1,2 +0,0 @@" ++ [10] ++ lit "-a" ++ [10] ++ lit "-b".

(** Four changes for [filter_changes]: a modified Python file, a file
    removed according to its status, a file whose diff removes every
    line, and a text file. *)
Definition mixed_changes : list json :=
  [ obj [("new_path", JStr (lit "biz/demo.py")); ("diff", JStr demo_diff);
         ("status", JStr (lit "modified")); ("additions", JInt 2)]%string;
    obj [("new_path", JStr (lit "biz/old.py")); ("status", JStr (lit "removed"))]%string;
    obj [("new_path", JStr (lit "biz/gone.java"));
         ("diff", JStr removal_diff)]%string;
    obj [("new_path", JStr (lit "README.txt")); ("diff", JStr (lit "+hello"))]%string ].

Definition long_message : str := lit "Fix the parser" ++ [10; 10] ++ lit "Details".

(** Two commits as the provider lists them, the first with a
    message of several lines. *)
Definition commits : list json :=
  [ obj [("sha", JStr (lit "c0ffee"));
         ("commit", obj [("message", JStr long_message);
                         ("author", obj [("name", JStr (lit "dev"))])])]%string;
    obj [("sha", JStr (lit "decaf"));
         ("commit", obj [("message", JStr (lit "Add tests"))])]%string ].

Definition commits_env : env := constant_env 200 (Some (JArr commits)) [].

(** A removed file as the provider lists it when it gives no patch. *)
Definition removed_file : json :=
  obj [("filename", JStr (lit "biz/old.py")); ("status", JStr (lit "removed"));
       ("additions", JInt 0); ("deletions", JInt 12)]%string.

Definition filtered_mixed_changes : list json :=
  [ obj [("diff", JStr demo_diff); ("new_path", JStr (lit "biz/demo.py"));
         ("additions", JInt 2); ("deletions", JInt 0)]%string ].

End Demo.

(* ================================================================= *)
(** * Verified properties *)

(** ** Properties of the regular-expression matcher *)

Module ReFacts.
Import Py Re.

(** A greedy repetition in front of a character outside the class
    takes the whole run when the rest of the pattern then succeeds. *)
Lemma rep_greedy p lo (ds s : str) pos cs (k : cont) r :
  Forall (fun c => p c = true) ds ->
  (lo <= length ds)%nat ->
  match s with [] => True | c :: _ => p c = false end ->
  k (pos + length ds)%nat s cs = Some r ->
  rep p lo None pos (ds ++ s) cs k = Some r.
Proof.
  intros Hds; revert lo pos.
  induction Hds as [|d ds Hd Hds IH]; intros lo pos Hlo Hs Hk.
  - simpl in *. assert (lo = O) as -> by lia.
    rewrite Nat.add_0_r in Hk.
    destruct s as [|c s']; simpl; [done|]. by rewrite Hs.
  - simpl. rewrite Hd. simpl.
    rewrite (IH (Nat.pred lo) (S pos)); [done| |done|].
    + simpl in Hlo. lia.
    + simpl in Hk. by replace (S pos + length ds)%nat with (pos + S (length ds))%nat by lia.
Qed.

(** A repetition fails when fewer characters of the class are
    available than its lower bound. *)
Lemma rep_none_short p lo hi (s : str) pos cs (k : cont) :
  match s with [] => True | c :: _ => p c = false end ->
  (0 < lo)%nat ->
  rep p lo hi pos s cs k = None.
Proof.
  intros Hs Hlo. destruct lo; [lia|].
  destruct s as [|c s']; simpl; [done|]. by rewrite Hs.
Qed.

Lemma run_seq r1 r2 pos s cs k :
  run (Seq r1 r2) pos s cs k
  = run r1 pos s cs (fun pos' s' cs' => run r2 pos' s' cs' k).
Proof. reflexivity. Qed.



End ReFacts.

(** ** Properties of the diff scanner *)

Module PositionsFacts.
Import Py Re Json Positions ReFacts.

Lemma scan_from_app lim pre post st :
  scan_from lim (pre ++ post) st = rbind (scan_from lim pre st) (scan_from lim post).
Proof.
  revert st. induction pre as [|l pre IH]; intros st; [done|].
  simpl. destruct (scan_line lim st l) as [st'|]; [|done]. simpl. apply IH.
Qed.

Lemma scan_app lim pre post st :
  scan lim pre = Ok st -> scan lim (pre ++ post) = scan_from lim post st.
Proof. unfold scan. intros H. by rewrite scan_from_app, H. Qed.


Lemma startswith_cons a p b s :
  startswith (a :: p) (b :: s) = (a =? b) && startswith p s.
Proof. reflexivity. Qed.

Lemma addition_not_header l : is_addition l = true -> is_header l = false.
Proof.
  unfold is_addition, is_header. destruct l as [|c l]; [done|].
  change (lit "+") with [43]. change (lit "@@") with [64; 64].
  rewrite !startswith_cons. destruct (43 =? c) eqn:E; [|done].
  apply Z.eqb_eq in E as <-. done.
Qed.

Lemma deletion_not_header l : is_deletion l = true -> is_header l = false.
Proof.
  unfold is_deletion, is_header. destruct l as [|c l]; [done|].
  change (lit "-") with [45]. change (lit "@@") with [64; 64].
  rewrite !startswith_cons. destruct (45 =? c) eqn:E; [|done].
  apply Z.eqb_eq in E as <-. done.
Qed.

Lemma addition_not_deletion l : is_addition l = true -> is_deletion l = false.
Proof.
  unfold is_addition, is_deletion. destruct l as [|c l]; [done|].
  change (lit "+") with [43]. change (lit "-") with [45].
  rewrite !startswith_cons. destruct (43 =? c) eqn:E; [|done].
  apply Z.eqb_eq in E as <-. done.
Qed.

(** The scanner's step, by the class of the line. *)
Lemma scan_line_header lim st l :
  is_header l = true ->
  scan_line lim st l = rbind (header_start lim l) (fun start => Ok (start, snd st)).
Proof. destruct st as [c out]. unfold scan_line, is_header. by intros ->. Qed.

Lemma scan_line_unknown lim out l :
  is_header l = false -> scan_line lim (None, out) l = Ok (None, out).
Proof. unfold scan_line, is_header. by intros ->. Qed.

Lemma scan_line_addition lim n out l :
  is_addition l = true ->
  scan_line lim (Some n, out) l = Ok (Some (n + 1), out ++ [n]).
Proof.
  intros H. pose proof (addition_not_header _ H) as Hh.
  unfold scan_line. unfold is_header in Hh. rewrite Hh.
  unfold is_addition in H. by rewrite H.
Qed.

Lemma scan_line_deletion lim st l :
  is_deletion l = true -> scan_line lim st l = Ok st.
Proof.
  intros H. pose proof (deletion_not_header _ H) as Hh.
  destruct st as [[n|] out]; unfold scan_line; unfold is_header in Hh; rewrite Hh; [|done].
  destruct (startswith (lit "+") l && negb (startswith (lit "+++") l)) eqn:E.
  - apply addition_not_deletion in E. congruence.
  - unfold is_deletion in H. by rewrite H.
Qed.

Lemma scan_line_context lim n out l :
  is_header l = false -> is_addition l = false -> is_deletion l = false ->
  scan_line lim (Some n, out) l = Ok (Some (n + 1), out).
Proof.
  unfold is_header, is_addition, is_deletion, scan_line. by intros -> -> ->.
Qed.

(** Inside a hunk no line raises, and the counter is the hunk's
    start plus the number of lines seen that are not deletions. *)
Lemma counter_in_hunk lim seg : forall n out,
  Forall (fun l => is_header l = false) seg ->
  exists out',
    scan_from lim seg (Some n, out)
    = Ok (Some (n + Z.of_nat (new_file_lines seg)), out').
Proof.
  unfold new_file_lines.
  induction seg as [|l seg IH]; intros n out Hseg.
  - exists out. simpl. do 3 f_equal. lia.
  - inversion Hseg as [|? ? Hl Hseg']; subst. cbn [scan_from].
    destruct (is_deletion l) eqn:Hd.
    + rewrite scan_line_deletion by done. cbn [rbind].
      rewrite filter_cons_False by (rewrite Hd; done). by apply IH.
    + rewrite filter_cons_True by done.
      destruct (is_addition l) eqn:Ha.
      * rewrite scan_line_addition by done. cbn [rbind].
        destruct (IH (n + 1) (out ++ [n]) Hseg') as [out' ->].
        exists out'. simpl length. do 3 f_equal. lia.
      * rewrite scan_line_context by done. cbn [rbind].
        destruct (IH (n + 1) out Hseg') as [out' ->].
        exists out'. simpl length. do 3 f_equal. lia.
Qed.


Lemma extract_is_recorded lim diff :
  _extract_comment_lines_from_diff lim diff = recorded lim (splitlines diff).
Proof. by destruct diff. Qed.

Lemma digits_len s : digits s -> (1 <= length s)%nat.
Proof. intros [H _]. destruct s; [done|simpl; lia]. Qed.




End PositionsFacts.

(** ** Reading numbers, and the scanner inside a hunk *)

Module IntFacts.
Import Py Re Json Positions ReFacts PositionsFacts.

Lemma isspace_cases c :
  isspace c = true ->
  In c [9; 10; 11; 12; 13; 28; 29; 30; 31; 32; 133; 160; 5760; 8232; 8233; 8239;
        8287; 12288; 8192; 8193; 8194; 8195; 8196; 8197; 8198; 8199; 8200; 8201; 8202].
Proof.
  unfold isspace, inb. cbn [existsb]. intros H.
  repeat (apply orb_true_iff in H as [H|H]);
    repeat (apply andb_true_iff in H as [? H]);
    repeat match goal with
           | E : (_ <=? _) = true |- _ => apply Z.leb_le in E
           | E : (_ =? _) = true |- _ => apply Z.eqb_eq in E
           end; try discriminate; cbn [In]; lia.
Qed.

Lemma digit_not_space c : isdigit c = true -> isspace c = false.
Proof.
  intros Hd. destruct (isspace c) eqn:Hs; [|done]. exfalso.
  apply isspace_cases in Hs. cbn [In] in Hs.
  repeat (destruct Hs as [<-|Hs]; [by vm_compute in Hd|]). done.
Qed.

Lemma digit_value_of c : isdigit c = true -> exists v, digit_value c = Some v.
Proof.
  unfold isdigit. intros H. apply bool_decide_eq_true in H as [v Hv]. by exists v.
Qed.

Lemma digit_not_sign c : isdigit c = true -> c <> 45 /\ c <> 43 /\ c <> 95.
Proof. intros H. repeat split; intros ->; by vm_compute in H. Qed.

Lemma drop_int_space_digit c s :
  isdigit c = true -> drop_int_space (c :: s) = c :: s.
Proof.
  intros H. simpl. unfold int_space. by rewrite (digit_not_space c H).
Qed.

Lemma digits_last ds :
  digits ds -> exists c r, rev ds = c :: r /\ isdigit c = true.
Proof.
  intros [Hne Hall]. apply Forall_rev in Hall.
  destruct (rev ds) as [|c r] eqn:E.
  - apply (f_equal (@rev Z)) in E. rewrite rev_involutive in E. done.
  - inversion Hall; subst. by exists c, r.
Qed.

Lemma int_body_digits ds : forall after,
  Forall (fun c => isdigit c = true) ds -> (after = true \/ ds <> []) ->
  int_body after ds = Some (map (fun c => default 0 (digit_value c)) ds).
Proof.
  induction ds as [|c ds IH]; intros after Hall Hne.
  - destruct Hne as [->|]; done.
  - inversion Hall as [|? ? Hc Hds]; subst.
    destruct (digit_value_of c Hc) as [v Hv].
    cbn [int_body map]. rewrite Hv. rewrite (IH true) by (done || by left). done.
Qed.

Lemma fold_digit_values ds : forall acc,
  fold_left (fun a d => 10 * a + d) (map (fun c => default 0 (digit_value c)) ds) acc
  = fold_left (fun a c => 10 * a + default 0 (digit_value c)) ds acc.
Proof. induction ds as [|c ds IH]; intros acc; [done|]. simpl. apply IH. Qed.

Lemma sign_of_digit c (s : str) :
  isdigit c = true ->
  match c :: s with
  | 45 :: s' => (true, s')
  | 43 :: s' => (false, s')
  | _ => (false, c :: s)
  end = (false, c :: s).
Proof.
  intros H. destruct (digit_not_sign c H) as (H45 & H43 & _).
  destruct c as [|p|p]; try done.
  repeat (destruct p as [p|p|]; try done).
Qed.

(** [int] on a run of decimal digits: the number it denotes, unless
    the run is longer than the interpreter allows. *)
Lemma int_of_digits lim ds :
  digits ds ->
  int_of_str lim ds
  = if negb (Nat.eqb lim 0) && (lim <? length ds)%nat then None
    else Some (int_digits ds).
Proof.
  intros Hd. pose proof Hd as [Hne Hall].
  destruct ds as [|c ds']; [done|]. inversion Hall as [|? ? Hc _]; subst.
  destruct (digits_last (c :: ds') Hd) as (x & r & Hr & Hx).
  unfold int_of_str. rewrite (drop_int_space_digit c ds' Hc), Hr.
  rewrite (drop_int_space_digit x r Hx), <- Hr, rev_involutive.
  rewrite (sign_of_digit c ds' Hc).
  rewrite (int_body_digits (c :: ds') false Hall) by (by right).
  rewrite length_map, fold_digit_values. reflexivity.
Qed.

Lemma int_of_digits_within lim ds :
  digits ds -> within_limit lim (length ds) ->
  int_of_str lim ds = Some (int_digits ds).
Proof.
  intros Hd Hw. rewrite int_of_digits by done.
  destruct Hw as [->|Hle]; [done|].
  rewrite (proj2 (Nat.ltb_ge lim (length ds))) by done. by rewrite andb_false_r.
Qed.

Lemma int_of_digits_over lim ds :
  digits ds -> ~ within_limit lim (length ds) -> int_of_str lim ds = None.
Proof.
  intros Hd Hw. rewrite int_of_digits by done.
  destruct (Nat.eqb lim 0) eqn:E0.
  { apply Nat.eqb_eq in E0. exfalso. apply Hw. by left. }
  destruct (lim <? length ds)%nat eqn:El; [done|].
  apply Nat.ltb_ge in El. exfalso. apply Hw. by right.
Qed.





(** The lines recorded in a hunk body grow strictly and stay between
    the start of the hunk and the start plus the number of lines of
    the new file seen. *)
Lemma hunk_lines_increasing lim seg : forall n out,
  Forall (fun l => is_header l = false) seg ->
  exists more,
    scan_from lim seg (Some n, out)
    = Ok (Some (n + Z.of_nat (new_file_lines seg)), out ++ more) /\
    StronglySorted Z.lt more /\
    Forall (fun l => n <= l < n + Z.of_nat (new_file_lines seg)) more.
Proof.
  unfold new_file_lines.
  induction seg as [|l seg IH]; intros n out Hseg.
  - exists []. simpl. rewrite app_nil_r. repeat split; try constructor.
    do 3 f_equal. lia.
  - inversion Hseg as [|? ? Hl Hseg']; subst. cbn [scan_from].
    destruct (is_deletion l) eqn:Hd.
    + rewrite scan_line_deletion by done. cbn [rbind].
      rewrite filter_cons_False by (rewrite Hd; done). by apply IH.
    + rewrite filter_cons_True by done. simpl length.
      destruct (is_addition l) eqn:Ha.
      * rewrite scan_line_addition by done. cbn [rbind].
        destruct (IH (n + 1) (out ++ [n]) Hseg') as (more & Hm & Hs & Hb).
        exists (n :: more). rewrite Hm, <- app_assoc. split.
        { simpl. do 3 f_equal. lia. }
        split.
        -- constructor; [done|]. eapply Forall_impl; [exact Hb|]. simpl. lia.
        -- constructor; [lia|]. eapply Forall_impl; [exact Hb|]. simpl. lia.
      * rewrite scan_line_context by done. cbn [rbind].
        destruct (IH (n + 1) out Hseg') as (more & Hm & Hs & Hb).
        exists more. rewrite Hm. split.
        { do 3 f_equal. lia. }
        split; [done|].
        eapply Forall_impl; [exact Hb|]. simpl. lia.
Qed.

Lemma scan_count lim lines : forall st st',
  scan_from lim lines st = Ok st' ->
  (length (snd st')
   <= length (snd st) + length (filter (fun l => is_addition l = true) lines))%nat.
Proof.
  induction lines as [|l lines IH]; intros [cur out] st' H.
  { injection H as <-. simpl. lia. }
  cbn [scan_from] in H.
  destruct (scan_line lim (cur, out) l) as [st1|] eqn:H1; [|done]. cbn [rbind] in H.
  specialize (IH st1 st' H).
  destruct (is_header l) eqn:Hh.
  - rewrite scan_line_header in H1 by done.
    destruct (header_start lim l) as [start|]; [|done]. injection H1 as <-.
    cbn [snd] in *.
    destruct (is_addition l) eqn:Ha.
    + rewrite filter_cons_True by done. simpl. lia.
    + rewrite filter_cons_False by (by rewrite Ha). lia.
  - destruct cur as [n|].
    + destruct (is_addition l) eqn:Ha.
      * rewrite scan_line_addition in H1 by done. injection H1 as <-. cbn [snd] in *.
        rewrite filter_cons_True by done. rewrite length_app in IH. simpl in *. lia.
      * rewrite filter_cons_False by (by rewrite Ha).
        destruct (is_deletion l) eqn:Hd.
        -- rewrite scan_line_deletion in H1 by done. by injection H1 as <-.
        -- rewrite scan_line_context in H1 by done. by injection H1 as <-.
    + rewrite scan_line_unknown in H1 by done. injection H1 as <-. cbn [snd] in *.
      destruct (is_addition l) eqn:Ha.
      * rewrite filter_cons_True by done. simpl. lia.
      * rewrite filter_cons_False by (by rewrite Ha). lia.
Qed.

Lemma recorded_scan lim lines out :
  recorded lim lines = Ok out -> exists cur, scan lim lines = Ok (cur, out).
Proof.
  unfold recorded. destruct (scan lim lines) as [[cur o]|]; [|done].
  intros [= <-]. by exists cur.
Qed.


End IntFacts.

(** ** Properties of the delivery loop *)

Module DeliveryFacts.
Import Py Json Positions Splitter Remote PullRequestHandler Delivery.

Lemma bind_ok {A B} (m : M A) (f : A -> M B) e tr a tr' :
  m e tr = (Ok a, tr') -> bind m f e tr = f a e tr'.
Proof. unfold bind. by intros ->. Qed.

Lemma bind_raise {A B} (m : M A) (f : A -> M B) e tr x tr' :
  m e tr = (Raise x, tr') -> bind m f e tr = (Raise x, tr').
Proof. unfold bind. by intros ->. Qed.

Lemma assigned_cons ps i c rest p :
  ps !! (i mod length ps)%nat = Some p ->
  assigned ps i (c :: rest) = (c, p) :: assigned ps (S i) rest.
Proof. simpl. by intros ->. Qed.

Lemma position_for ps i :
  ps <> [] -> exists p : position, ps !! (i mod length ps)%nat = Some p.
Proof.
  intros Hne. apply lookup_lt_is_Some_2.
  apply Nat.mod_upper_bound. by destruct ps.
Qed.

(** The inline loop sends one request per comment, in order, each at
    its assigned position, and counts the answers with status 201. *)
Lemma post_inline_run h head ps comments : forall i sc e tr,
  ps <> [] ->
  post_inline h head ps i comments sc e tr
  = (Ok (sc + successes e tr (map (inline_request h head) (assigned ps i comments))),
     tr ++ map Call (map (inline_request h head) (assigned ps i comments))).
Proof.
  induction comments as [|c rest IH]; intros i sc e tr Hne.
  - simpl. unfold ret. by rewrite Z.add_0_r, app_nil_r.
  - destruct (position_for ps i Hne) as [p Hp].
    rewrite (assigned_cons _ _ _ _ _ Hp). cbn [post_inline map successes].
    erewrite bind_ok; cycle 1.
    { unfold lift. rewrite Hp. by destruct ps. }
    unfold requests_post. erewrite bind_ok by reflexivity.
    rewrite IH by done.
    change {| meth := POST;
              target := PullComments (repo_full_name h) (pull_request_number h);
              token := github_token h;
              payload := Some (inline_payload c head p) |}
      with (inline_request h head (c, p)).
    rewrite <- app_assoc. cbn [app]. f_equal. f_equal.
    destruct (status_code (server e tr (inline_request h head (c, p))) =? 201); lia.
Qed.

Lemma max_comments_default limit : max_comments_of limit (lit "20") = 20.
Proof.
  destruct limit as [|[|n]]; reflexivity.
Qed.

Lemma configured_max_env e :
  max_comments_of (int_max_str_digits e)
    (default (lit "20") (environ e !! max_count_key)) = configured_max e.
Proof.
  unfold configured_max. destruct (environ e !! max_count_key) as [v|]; [done|].
  apply max_comments_default.
Qed.

(** The whole run of [add_pull_request_notes], when the head commit
    lookup and the position extraction return. *)
Lemma add_pull_request_notes_run h review changes e tr head ps :
  head_commit_id_of (webhook_data h) = Ok head ->
  _extract_review_positions (int_max_str_digits e) (default [] changes) = Ok ps ->
  add_pull_request_notes h review changes e tr
  = match review_comments review with
    | [] => (Ok tt, tr)
    | _ :: _ =>
        if negb (truthy head) || bool_decide (ps = []) then
          (Ok tt, tr ++ [Call (issue_request h review)])
        else
          let reqs := inline_requests e h review head ps in
          (Ok tt,
           tr ++ map Call reqs
              ++ if successes e tr reqs =? 0
                 then [Call (issue_request h review)] else [])
    end.
Proof.
  intros Hhead Hps. unfold add_pull_request_notes.
  destruct (review_comments review) as [|c0 cs] eqn:Hc; [done|].
  unfold getenv, max_str_digits.
  erewrite bind_ok by reflexivity. erewrite bind_ok by reflexivity.
  rewrite configured_max_env.
  erewrite bind_ok by (unfold lift; rewrite Hhead; reflexivity).
  erewrite bind_ok by (unfold lift; rewrite Hps; reflexivity).
  destruct (negb (truthy head) || bool_decide (ps = [])) eqn:Hcond.
  - reflexivity.
  - apply orb_false_iff in Hcond as [_ Hne]. apply bool_decide_eq_false in Hne.
    erewrite bind_ok by (by apply post_inline_run).
    unfold inline_requests, delivered_comments. rewrite Hc. rewrite Z.add_0_l.
    destruct (successes _ _ _ =? 0).
    + unfold _add_pull_request_issue_comment, requests_post.
      erewrite bind_ok by reflexivity. unfold ret. by rewrite <- app_assoc.
    + unfold ret. by rewrite app_nil_r.
Qed.

End DeliveryFacts.

(** ** Claims about the diff scanner *)

Module DiffClaims.
Import Py Re Json Positions ReFacts PositionsFacts IntFacts.

(** C1.  A diff that starts with a well-formed hunk header whose
    new-file start has 4301 digits, followed by an addition line.  With
    the interpreter's default limit of 4300 digits the conversion of the
    start raises [ValueError], and so do the extraction of the lines
    and of the positions of a change that carries this diff.  With the
    limit lifted the same diff gives the position the claim describes:
    the addition line at the start of the hunk. *)
Theorem oversized_hunk_start_raises :
  header_start 4300 (lit "@@ -1 +" ++ replicate 4301 49 ++ lit " @@") = Raise ValueError /\
  _extract_comment_lines_from_diff 4300 oversized_diff = Raise ValueError /\
  _extract_review_positions 4300
    [obj [("new_path"%string, JStr (lit "biz/demo.py"));
          ("diff"%string, JStr oversized_diff)]] = Raise ValueError /\
  _extract_comment_lines_from_diff 0 oversized_diff
  = Ok [int_digits (replicate 4301 49)].
Proof.
  assert (header_start 4300 (lit "@@ -1 +" ++ replicate 4301 49 ++ lit " @@")
          = Raise ValueError) as Hh by (vm_compute; reflexivity).
  assert (_extract_comment_lines_from_diff 4300 oversized_diff = Raise ValueError) as Hx
    by (vm_compute; reflexivity).
  split; [exact Hh|]. split; [exact Hx|]. split.
  - unfold _extract_review_positions, positions_of_change, comment_lines_of.
    cbn [rmapM]. unfold get, get_default, obj. cbn [rbind].
    change (list_to_map _ !! "new_path"%string) with (Some (JStr (lit "biz/demo.py"))).
    change (list_to_map _ !! "diff"%string) with (Some (JStr oversized_diff)).
    cbn [default from_option id]. change (truthy (JStr (lit "biz/demo.py"))) with true.
    cbn [rbind]. change (truthy (JStr oversized_diff)) with true. cbn [rbind].
    by rewrite Hx.
  - vm_compute. reflexivity.
Qed.

End DiffClaims.

(** ** Claims about comment delivery *)

Module DeliveryClaims.
Import Py Json Positions Splitter Remote PullRequestHandler Delivery DeliveryFacts.



Lemma assigned_length ps comments : forall i0,
  ps <> [] -> length (assigned ps i0 comments) = length comments.
Proof.
  induction comments as [|c0 rest IH]; intros i0 Hne; [done|].
  destruct (position_for ps i0 Hne) as [p0 Hp0].
  rewrite (assigned_cons _ _ _ _ _ Hp0). simpl. by rewrite IH.
Qed.






Lemma calls_map_Call reqs : calls (map Call reqs) = reqs.
Proof. induction reqs as [|r reqs IH]; [done|]. unfold calls in *. simpl. by f_equal. Qed.

Lemma calls_app tr1 tr2 : calls (tr1 ++ tr2) = calls tr1 ++ calls tr2.
Proof. unfold calls. by rewrite omap_app. Qed.



(** C2.  An event whose [pull_request] carries [head: null] has no
    head commit id.  The handler is built from it as from any other
    event, but [add_pull_request_notes] then raises [AttributeError]
    at the lookup of the id, before any request is sent: neither the
    aggregate comment nor an inline comment is posted. *)
Theorem null_head_raises :
  init Demo.pr_webhook_null_head (lit "token") (lit "https://github.com")
  = Ok Demo.pr_handler_null_head /\
  review_comments Demo.review <> [] /\
  forall e tr,
    add_pull_request_notes Demo.pr_handler_null_head Demo.review (Some Demo.changes) e tr
    = (Raise AttributeError, tr).
Proof.
  split; [reflexivity|].
  assert (review_comments Demo.review = [lit "first"; lit "second"]) as Hrc
    by (vm_compute; reflexivity).
  split; [by rewrite Hrc|].
  intros e tr. unfold add_pull_request_notes. rewrite Hrc.
  unfold getenv, max_str_digits.
  erewrite bind_ok by reflexivity. erewrite bind_ok by reflexivity.
  by erewrite bind_raise by reflexivity.
Qed.











End DeliveryClaims.

(** ** Claims about the retrieval of pull-request files *)

Module RetryClaims.
Import Py Json Positions Splitter Remote PullRequestHandler Delivery DeliveryFacts.

Lemma retries_S h k :
  retries h (S k) = retries h k ++ [Call (files_request h); Sleep 10].
Proof.
  unfold retries. by rewrite replicate_S_end, concat_app.
Qed.

Lemma attempt_step h left e tr :
  changes_attempts h (S left) e tr
  = let response := server e tr (files_request h) in
    let tr1 := tr ++ [Call (files_request h)] in
    if status_code response =? 200 then
      match body response with
      | Some files =>
          if truthy files then (convert_files files, tr1)
          else changes_attempts h left e (tr1 ++ [Sleep 10])
      | None => (Raise ValueError, tr1)
      end
    else (Ok [], tr1).
Proof.
  cbn [changes_attempts]. unfold requests_get.
  erewrite bind_ok by reflexivity. fold (files_request h).
  destruct (status_code _ =? 200); [|done].
  unfold json_of, lift. destruct (body _) as [files|]; [|done].
  erewrite bind_ok by reflexivity.
  destruct (truthy files); [done|].
  unfold sleep, retry_delay. by erewrite bind_ok by reflexivity.
Qed.

(** After [k] empty answers the loop is where it started, with [k]
    attempts fewer and the retries on record. *)
Lemma attempts_after_empty h e tr : forall k left,
  (k <= left)%nat ->
  (forall j, (j < k)%nat -> empty_success (server e (tr ++ retries h j) (files_request h))) ->
  changes_attempts h left e tr
  = changes_attempts h (left - k) e (tr ++ retries h k).
Proof.
  induction k as [|k IH]; intros left Hk Hempty.
  - unfold retries. simpl. by rewrite Nat.sub_0_r, app_nil_r.
  - rewrite (IH left) by (try lia; intros j Hj; apply Hempty; lia).
    replace (left - k)%nat with (S (left - S k)) by lia.
    rewrite attempt_step. cbv zeta.
    destruct (Hempty k) as (Hs & j & Hb & Hj); [lia|].
    rewrite Hs, Hb, Hj. simpl. rewrite retries_S.
    by rewrite <- !app_assoc.
Qed.

Lemma attempts_bound h e : forall left tr,
  exists new,
    snd (changes_attempts h left e tr) = tr ++ new /\
    (length (calls new) <= left)%nat /\
    Forall (fun r => r = files_request h) (calls new).
Proof.
  induction left as [|left IH]; intros tr.
  - exists []. simpl. unfold ret. by rewrite app_nil_r.
  - rewrite attempt_step. cbv zeta.
    destruct (status_code _ =? 200).
    + destruct (body _) as [files|].
      * destruct (truthy files).
        -- exists [Call (files_request h)]. simpl. repeat split; [lia|by constructor].
        -- destruct (IH ((tr ++ [Call (files_request h)]) ++ [Sleep 10])) as (new & Hn & Hl & Hf).
           exists (Call (files_request h) :: Sleep 10 :: new).
           rewrite Hn. rewrite <- !app_assoc. simpl. repeat split; [lia|by constructor].
      * exists [Call (files_request h)]. simpl. repeat split; [lia|by constructor].
    + exists [Call (files_request h)]. simpl. repeat split; [lia|by constructor].
Qed.

Lemma event_type_ok h :
  event_type h = lit "pull_request" ->
  get_pull_request_changes h = changes_attempts h 3.
Proof.
  intros H. unfold get_pull_request_changes, str_eqb.
  by rewrite bool_decide_eq_true_2.
Qed.

Lemma convert_listed_files (files : list (gmap string json)) :
  convert_files (JArr (JObj <$> files)) = Ok (change_of_file <$> files).
Proof.
  unfold convert_files. induction files as [|file files IH]; [done|].
  cbn [fmap list_fmap rmapM].
  change (convert_file (JObj file)) with (Ok (change_of_file file)).
  cbn [rbind]. cbn [fmap list_fmap] in IH. by rewrite IH.
Qed.

(** C5.  [get_pull_request_changes] issues at most three requests,
    all of them the list-files request.  After [k < 3] successful
    answers without files, each followed by a pause of 10: a successful
    answer with a non-empty list of files returns the list of their
    changes at once, each with the file name as old and new path, the
    patch as diff and the two counts; an answer with another status
    returns the empty list at once.  Three successful answers without
    files return the empty list.  With two empty answers and files in
    the third, three requests are made and the changes of the third
    answer are returned. *)
Theorem pull_request_changes_retry h e tr :
  event_type h = lit "pull_request" ->
  (exists new,
     snd (get_pull_request_changes h e tr) = tr ++ new /\
     (length (calls new) <= 3)%nat /\
     Forall (fun r => r = files_request h) (calls new)) /\
  (forall k, (k < 3)%nat ->
     (forall j, (j < k)%nat ->
        empty_success (server e (tr ++ retries h j) (files_request h))) ->
     let response := server e (tr ++ retries h k) (files_request h) in
     (forall files : list (gmap string json),
        status_code response = 200 ->
        body response = Some (JArr (JObj <$> files)) -> files <> [] ->
        get_pull_request_changes h e tr
        = (Ok (change_of_file <$> files),
           tr ++ retries h k ++ [Call (files_request h)])) /\
     (status_code response <> 200 ->
        get_pull_request_changes h e tr
        = (Ok [], tr ++ retries h k ++ [Call (files_request h)]))) /\
  ((forall j, (j < 3)%nat ->
      empty_success (server e (tr ++ retries h j) (files_request h))) ->
   get_pull_request_changes h e tr = (Ok [], tr ++ retries h 3)) /\
  length (calls (retries h 2 ++ [Call (files_request h)])) = 3%nat.
Proof.
  intros Hev. rewrite (event_type_ok h Hev).
  split; [apply attempts_bound|]. split; [|split; [|reflexivity]].
  - intros k Hk Hempty response.
    rewrite (attempts_after_empty h e tr k 3) by (try lia; done).
    replace (3 - k)%nat with (S (2 - k)) by lia.
    rewrite attempt_step. cbv zeta. fold response. split.
    + intros files Hs Hb Hne. rewrite Hs, Hb.
      assert (truthy (JArr (JObj <$> files)) = true) as -> by (by destruct files).
      change (200 =? 200) with true. cbv beta iota.
      by rewrite convert_listed_files, <- app_assoc.
    + intros Hs. apply Z.eqb_neq in Hs. rewrite Hs. by rewrite <- app_assoc.
  - intros Hempty.
    rewrite (attempts_after_empty h e tr 3 3) by (try lia; done).
    reflexivity.
Qed.

(** Two empty answers, then the file of the sample listing. *)
Lemma pull_request_changes_retry_witness :
  get_pull_request_changes Demo.pr_handler
    (Demo.scripted_env [Demo.empty_response; Demo.empty_response; Demo.files_response]) []
  = (Ok [JObj (list_to_map
           [("old_path", JStr (lit "biz/demo.py")); ("new_path", JStr (lit "biz/demo.py"));
            ("diff", JStr demo_diff); ("additions", JInt 2);
            ("deletions", JInt 1)]%string)],
     [] ++ retries Demo.pr_handler 2 ++ [Call (files_request Demo.pr_handler)]).
Proof.
  pose proof (pull_request_changes_retry Demo.pr_handler
                (Demo.scripted_env [Demo.empty_response; Demo.empty_response;
                                    Demo.files_response]) [] eq_refl)
    as (_ & H & _).
  specialize (H 2%nat). cbv zeta in H. destruct H as [Hfiles _]; [lia| |].
  - intros j Hj. destruct j as [|[|j]]; [| |lia];
      (split; [reflexivity|]; exists (JArr []); split; reflexivity).
  - etransitivity.
    + apply (Hfiles [list_to_map [("filename", JStr (lit "biz/demo.py"));
                                  ("patch", JStr demo_diff);
                                  ("additions", JInt 2); ("deletions", JInt 1)]%string]);
        [reflexivity|reflexivity|done].
    + reflexivity.
Defined.

End RetryClaims.

(** ** Claims about push events *)

Module PushClaims.
Import Py Json Remote PushHandler DeliveryFacts.

(** What [__init__] stores. *)
Lemma init_fields (m : gmap string json) tok url h :
  init (JObj m) tok url = Ok h ->
  webhook_data h = JObj m /\
  event_type h = lit "push" /\
  commit_list h = default (JArr []) (m !! "commits"%string).
Proof.
  unfold init, get, get_default. cbn [rbind].
  destruct (default (JObj ∅) (m !! "repository"%string)); try done.
  cbn [rbind]. destruct (default (JStr []) (m !! "ref"%string)); try done.
  cbn [rbind]. by intros [= <-].
Qed.

Lemma no_commits h e tr :
  truthy (commit_list h) = false -> get_push_changes h e tr = (Ok [], tr).
Proof.
  intros H. unfold get_push_changes. rewrite H.
  by destruct (negb (bool_decide _)).
Qed.

(** C10.  A push whose commit list is empty (or missing, or
    otherwise falsy) returns the empty list without any request,
    whatever the other fields of the payload are. *)
Theorem push_without_commits :
  (forall h e tr,
     truthy (commit_list h) = false -> get_push_changes h e tr = (Ok [], tr)) /\
  (forall (m : gmap string json) tok url h e tr,
     init (JObj m) tok url = Ok h ->
     m !! "commits"%string = None \/ m !! "commits"%string = Some (JArr []) ->
     get_push_changes h e tr = (Ok [], tr)).
Proof.
  split; [exact no_commits|].
  intros m tok url h e tr Hinit Hc.
  apply init_fields in Hinit as (_ & _ & Hcl).
  apply no_commits. rewrite Hcl. by destruct Hc as [-> | ->].
Qed.

(** A deleted branch without commits. *)
Lemma push_without_commits_witness :
  get_push_changes Demo.deleted_handler_no_commits Demo.push_env [] = (Ok [], []).
Proof.
  destruct push_without_commits as [H _]. by apply H.
Defined.

(** C6 as stated fails: a push carrying [deleted: true] and one
    commit, but no [before] and [after], goes through the per-commit
    comparison and returns the compared files. *)
Lemma deleted_push_may_compare :
  ~ (forall (m : gmap string json) tok url h e tr,
       init (JObj m) tok url = Ok h ->
       m !! "deleted"%string = Some (JBool true) ->
       fst (get_push_changes h e tr) = Ok [] /\
       filter (fun r => is_compare r = true)
         (Delivery.issued (length tr) (snd (get_push_changes h e tr))) = []).
Proof.
  intros H.
  destruct (H Demo.push_fields (lit "") (lit "https://github.com")
              Demo.push_handler Demo.push_env [] eq_refl eq_refl) as [_ Hcalls].
  by vm_compute in Hcalls.
Qed.

(** C6, amended.  A push carrying a truthy [deleted] returns the
    empty list without any request when its commit list is empty, or
    when [before] and [after] are both present and non-empty and
    [created] is not set. *)
Theorem deleted_push_no_compare (m : gmap string json) tok url h e tr :
  init (JObj m) tok url = Ok h ->
  truthy (default (JBool false) (m !! "deleted"%string)) = true ->
  truthy (default (JArr []) (m !! "commits"%string)) = false \/
  (truthy (default (JStr []) (m !! "before"%string)) = true /\
   truthy (default (JStr []) (m !! "after"%string)) = true /\
   truthy (default (JBool false) (m !! "created"%string)) = false) ->
  get_push_changes h e tr = (Ok [], tr).
Proof.
  intros Hinit Hdel Hcase.
  apply init_fields in Hinit as (Hwd & Hev & Hcl).
  destruct Hcase as [Hc | (Hb & Ha & Hcr)].
  - apply no_commits. by rewrite Hcl.
  - unfold get_push_changes. rewrite Hev, Hwd, Hcl.
    rewrite bool_decide_eq_true_2 by done. cbn [negb].
    destruct (truthy (default (JArr []) (m !! "commits"%string))); [|done]. cbn [negb].
    unfold get_default, lift.
    erewrite bind_ok by reflexivity. erewrite bind_ok by reflexivity.
    rewrite Hb, Ha. cbn [andb].
    erewrite bind_ok by reflexivity. rewrite Hcr.
    erewrite bind_ok by reflexivity. by rewrite Hdel.
Qed.

(** The deleted branch of the sample data. *)
Lemma deleted_push_no_compare_witness :
  get_push_changes Demo.deleted_handler Demo.push_env [] = (Ok [], []).
Proof.
  apply (deleted_push_no_compare Demo.deleted_fields (lit "") (lit "https://github.com")
           Demo.deleted_handler Demo.push_env []);
    [reflexivity|reflexivity|right; by vm_compute].
Defined.

End PushClaims.

(** ** Properties of the review splitter *)

Module SplitterFacts.
Import Py Re Splitter ReFacts.

Lemma spaced_tail c s : spaced (c :: s) = true -> spaced s = true.
Proof. simpl. by intros [_ ?]%andb_true_iff. Qed.

Lemma islinebreak_isspace c : islinebreak c = true -> isspace c = true.
Proof.
  unfold islinebreak, isspace, inb. simpl. intros H.
  repeat (apply orb_true_iff in H as [H|H]); try apply Z.eqb_eq in H; subst; done.
Qed.

Lemma spaced_no_linebreak s :
  spaced s = true -> Forall (fun c => islinebreak c = false) s.
Proof.
  induction s as [|c s IH]; [constructor|].
  intros H. constructor; [|by apply IH, (spaced_tail c)].
  simpl in H. apply andb_true_iff in H as [H _].
  destruct (islinebreak c) eqn:E; [|done].
  rewrite (islinebreak_isspace c E) in H.
  apply andb_true_iff in H as [H _]. apply Z.eqb_eq in H. by subst.
Qed.

(** A string without line boundaries is a single line. *)
Lemma splitlines_from_single s : forall cur,
  Forall (fun c => islinebreak c = false) s ->
  splitlines_from cur s = match rev cur ++ s with [] => [] | l => [l] end.
Proof.
  induction s as [|c s IH]; intros cur Hs.
  - simpl. rewrite app_nil_r. destruct cur as [|a cur]; [done|].
    simpl. by destruct (rev cur ++ [a]) eqn:E; [destruct (rev cur)|].
  - inversion Hs as [|? ? Hc Hs']; subst. simpl.
    assert ((c =? 13) = false) as ->.
    { apply Z.eqb_neq. intros ->. done. }
    rewrite Hc. rewrite IH by done. simpl. by rewrite <- app_assoc.
Qed.

Lemma lstrip_id c s : isspace c = false -> lstrip (c :: s) = c :: s.
Proof. simpl. by intros ->. Qed.

(** The last character of a spaced string is not whitespace. *)
Lemma spaced_rev s :
  s <> [] -> spaced s = true ->
  exists c r, rev s = c :: r /\ isspace c = false.
Proof.
  induction s as [|c s IH]; [done|]. intros _ H.
  destruct s as [|d s].
  - exists c, []. split; [done|]. simpl in H.
    destruct (isspace c); [|done]. by rewrite andb_false_r in H.
  - destruct IH as (x & r & Hr & Hx); [done|by apply (spaced_tail c)|].
    exists x, (r ++ [c]). split; [|done].
    change (rev (c :: d :: s)) with (rev (d :: s) ++ [c]). by rewrite Hr.
Qed.

Lemma strip_single_spaced s : single_spaced s = true -> strip s = s.
Proof.
  unfold single_spaced. destruct s as [|c s]; [done|].
  intros [Hc Hs]%andb_true_iff. apply negb_true_iff in Hc.
  unfold strip, rstrip. rewrite (lstrip_id c s Hc).
  destruct (spaced_rev (c :: s)) as (x & r & Hr & Hx); [done|done|].
  rewrite Hr, (lstrip_id x r Hx), <- Hr. apply rev_involutive.
Qed.

(** A pattern that matches nowhere leaves the string as it is. *)
Lemma sub_from_id r repl s : forall pos,
  (forall k, (k < length s)%nat -> match_len r (pos + k) (drop k s) = None) ->
  sub_from r repl pos 0 s = s.
Proof.
  induction s as [|c s IH]; intros pos H; [done|].
  simpl. pose proof (H 0%nat) as H0. rewrite Nat.add_0_r in H0.
  simpl in H0. rewrite H0 by lia. f_equal. apply IH.
  intros k Hk. specialize (H (S k)). simpl in H.
  replace (S pos + k)%nat with (pos + S k)%nat by lia. apply H. lia.
Qed.

Lemma split_from_id r s : forall pos cur,
  (forall k, (k < length s)%nat -> match_len r (pos + k) (drop k s) = None) ->
  split_from r pos 0 cur s = [rev cur ++ s].
Proof.
  induction s as [|c s IH]; intros pos cur H.
  - simpl. by rewrite app_nil_r.
  - simpl. pose proof (H 0%nat) as H0. rewrite Nat.add_0_r in H0.
    simpl in H0. rewrite H0 by lia. rewrite IH.
    + simpl. by rewrite <- app_assoc.
    + intros k Hk. specialize (H (S k)). simpl in H.
      replace (S pos + k)%nat with (pos + S k)%nat by lia. apply H. lia.
Qed.

Lemma match_len_none r pos s :
  run r pos s [] accept = None -> match_len r pos s = None.
Proof. unfold match_len. by intros ->. Qed.

Lemma marker_not_at_start pos s : (0 < pos)%nat -> match_len marker_re pos s = None.
Proof.
  intros H. apply match_len_none. unfold marker_re. cbn [seqs].
  rewrite run_seq. destruct pos; [lia|reflexivity].
Qed.

Lemma sub_marker_id s : match_ marker_re s = None -> sub marker_re [] s = s.
Proof.
  intros H. unfold sub. apply sub_from_id. intros [|k] Hk.
  - simpl. by apply match_len_none.
  - apply marker_not_at_start. lia.
Qed.

Lemma blank_needs_newline pos s :
  match s with 10 :: _ => False | _ => True end -> match_len blank_re pos s = None.
Proof.
  intros H. apply match_len_none. unfold blank_re. cbn [seqs].
  rewrite run_seq. unfold chr. cbn [run].
  destruct s as [|c s]; [done|]. destruct (10 =? c) eqn:E; [|done].
  apply Z.eqb_eq in E. by subst.
Qed.

Lemma drop_head_Forall {A} (P : A -> Prop) (s : list A) k :
  Forall P s -> match drop k s with c :: _ => P c | [] => True end.
Proof.
  intros H. apply (Forall_drop _ k) in H.
  destruct (drop k s); [done|]. by inversion H.
Qed.

Lemma spaces_at_nonspace pos c s :
  isspace c = false -> match_len spaces_re pos (c :: s) = None.
Proof.
  intros H. apply match_len_none. unfold spaces_re, plus. cbn [run rep].
  by rewrite H.
Qed.

Lemma spaces_at_single pos c d s :
  isspace c = true -> isspace d = false ->
  match_len spaces_re pos (c :: d :: s) = Some 1%nat.
Proof.
  intros Hc Hd. unfold match_len, spaces_re, plus. cbn [run rep].
  rewrite Hc, Hd. cbn [andb hi_allows Nat.pred]. unfold accept.
  rewrite (proj2 (Nat.ltb_lt pos (S pos))) by lia. f_equal. lia.
Qed.

(** Collapsing whitespace changes nothing in a spaced string. *)
Lemma sub_spaces_id s : forall pos,
  spaced s = true -> sub_from spaces_re [32] pos 0 s = s.
Proof.
  induction s as [|c s IH]; intros pos H; [done|].
  pose proof (spaced_tail c s H) as Hs.
  cbn [sub_from]. destruct (isspace c) eqn:Hc.
  - simpl in H. rewrite Hc in H.
    apply andb_true_iff in H as [[Hc32 Hd]%andb_true_iff _].
    apply Z.eqb_eq in Hc32. subst c.
    destruct s as [|d s]; [done|]. apply negb_true_iff in Hd.
    rewrite (spaces_at_single pos 32 d s) by done.
    simpl app. f_equal. by apply IH.
  - rewrite spaces_at_nonspace by done. f_equal. by apply IH.
Qed.

Lemma split_blank_single s :
  Forall (fun c => islinebreak c = false) s -> split blank_re s = [s].
Proof.
  intros H. unfold split. rewrite split_from_id; [done|].
  intros k Hk. apply blank_needs_newline.
  pose proof (drop_head_Forall _ s k H) as Hd.
  destruct (drop k s) as [|c t]; [done|].
  destruct (decide (c = 10)) as [->|Hne]; [done|].
  destruct c as [|p|p]; try done. repeat (destruct p as [p|p|]; try done).
Qed.

(** The function on a review whose text after the marker is not
    empty. *)
Lemma split_unfold review :
  sub marker_re [] (strip review) <> [] ->
  _split_review_to_comments review
  = match omap list_item (review_lines review) with
    | [] => paragraph_comments (cut_score_section (review_body review))
    | items => items
    end.
Proof.
  intros H. unfold _split_review_to_comments, review_lines, review_body.
  destruct review as [|c r]; [by destruct H|].
  destruct (sub marker_re [] (strip (c :: r))) as [|d t]; [done|].
  by destruct (omap list_item _).
Qed.

End SplitterFacts.

Module ItemFacts.
Import Py Re Positions Splitter ReFacts PositionsFacts.

Lemma rep_greedy_all p lo (ds : str) pos cs (k : cont) r :
  Forall (fun c => p c = true) ds ->
  (lo <= length ds)%nat ->
  k (pos + length ds)%nat [] cs = Some r ->
  rep p lo None pos ds cs k = Some r.
Proof.
  intros Hds Hlo Hk. rewrite <- (app_nil_r ds) at 1.
  by apply rep_greedy.
Qed.

Lemma run_bol pos (s : str) cs k :
  run Bol pos s cs k = match pos with O => k pos s cs | S _ => None end.
Proof. reflexivity. Qed.

Lemma run_rep p lo hi pos (s : str) cs k :
  run (Rep p lo hi) pos s cs k = rep p lo hi pos s cs k.
Proof. reflexivity. Qed.

Lemma run_oneof_hit l c pos (s : str) cs k :
  inb c l = true -> run (oneof l) pos (c :: s) cs k = k (S pos) s cs.
Proof. intros H. unfold oneof. cbn [run]. by rewrite H. Qed.

Lemma run_oneof_miss l c pos (s : str) cs k :
  inb c l = false -> run (oneof l) pos (c :: s) cs k = None.
Proof. intros H. unfold oneof. cbn [run]. by rewrite H. Qed.

Lemma item_text_head rest :
  item_text rest -> match rest with [] => True | c :: _ => isspace c = false end.
Proof. intros [H _]. by destruct rest. Qed.

Lemma item_text_length rest : item_text rest -> (1 <= length rest)%nat.
Proof. intros [H _]. destruct rest; [done|simpl; lia]. Qed.

(** The text after the marker is captured whole. *)
Lemma capture_rest pos rest cs :
  item_text rest ->
  run (Seq (Grp 1 (plus any)) Eol) pos rest cs accept
  = Some ((pos + length rest)%nat, (1%nat, rest) :: cs).
Proof.
  intros Hr. rewrite run_seq. cbn [run]. unfold plus. cbn [run].
  apply rep_greedy_all; [apply Hr|by apply item_text_length|].
  cbv beta. cbn [run]. unfold accept.
  replace (pos + length rest - pos)%nat with (length rest) by lia.
  by rewrite firstn_all.
Qed.

Lemma bullet_match c ws rest :
  inb c [45; 42; 43] = true -> ws <> [] -> whitespace ws -> item_text rest ->
  match_ bullet_re (c :: ws ++ rest)
  = Some ((1 + length ws + length rest)%nat, [(1%nat, rest)]).
Proof.
  intros Hc Hne Hws Hr. unfold match_, bullet_re. cbn [seqs].
  rewrite run_seq, run_bol. cbv beta. rewrite run_seq, run_oneof_hit by done.
  cbv beta. rewrite run_seq. unfold plus at 1. rewrite run_rep.
  apply rep_greedy; [done|by destruct ws; [|simpl; lia]|by apply item_text_head|].
  cbv beta. rewrite capture_rest by done. do 2 f_equal.
Qed.

Lemma digit_not_bullet c : isdigit c = true -> inb c [45; 42; 43] = false.
Proof.
  intros H. unfold inb. simpl.
  destruct (c =? 45) eqn:E1; [apply Z.eqb_eq in E1; by subst|].
  destruct (c =? 42) eqn:E2; [apply Z.eqb_eq in E2; by subst|].
  destruct (c =? 43) eqn:E3; [apply Z.eqb_eq in E3; by subst|]. done.
Qed.

Lemma ordered_not_bullet ds (s : str) :
  digits ds -> match_ bullet_re (ds ++ s) = None.
Proof.
  intros [Hne Hds]. destruct ds as [|d ds]; [done|].
  inversion Hds as [|? ? Hd _]; subst.
  unfold match_, bullet_re. cbn [seqs app].
  rewrite run_seq, run_bol. cbv beta.
  by rewrite run_seq, run_oneof_miss by (by apply digit_not_bullet).
Qed.

Lemma ordered_match ds m ws rest :
  digits ds -> inb m [46; 12289; 41] = true -> whitespace ws -> item_text rest ->
  match_ ordered_re (ds ++ m :: ws ++ rest)
  = Some ((length ds + 1 + length ws + length rest)%nat, [(1%nat, rest)]).
Proof.
  intros Hds Hm Hws Hr. unfold match_, ordered_re. cbn [seqs].
  rewrite run_seq, run_bol. cbv beta. rewrite run_seq.
  unfold plus at 1. rewrite run_rep.
  apply rep_greedy; [apply Hds|by apply digits_len| |].
  { unfold inb in Hm. simpl in Hm.
    destruct (isdigit m) eqn:E; [|done]. exfalso.
    repeat (apply orb_true_iff in Hm as [Hm|Hm]); try apply Z.eqb_eq in Hm; subst; done. }
  cbv beta. rewrite run_seq, run_oneof_hit by done.
  cbv beta. rewrite run_seq. unfold star. rewrite run_rep.
  apply rep_greedy; [done|lia|by apply item_text_head|].
  cbv beta. rewrite capture_rest by done. do 2 f_equal. simpl. lia.
Qed.

(** A bullet line carries the text after its marker and whitespace. *)
Lemma list_item_bullet c ws rest :
  inb c [45; 42; 43] = true -> ws <> [] -> whitespace ws -> item_text rest ->
  list_item (c :: ws ++ rest) = Some (strip rest).
Proof.
  intros Hc Hne Hws Hr. unfold list_item.
  by rewrite (bullet_match c ws rest).
Qed.

(** An ordered line carries the text after its number, marker and
    optional whitespace. *)
Lemma list_item_ordered ds m ws rest :
  digits ds -> inb m [46; 12289; 41] = true -> whitespace ws -> item_text rest ->
  list_item (ds ++ m :: ws ++ rest) = Some (strip rest).
Proof.
  intros Hds Hm Hws Hr. unfold list_item.
  rewrite (ordered_not_bullet ds) by done.
  by rewrite (ordered_match ds m ws rest).
Qed.

End ItemFacts.

(** ** What a match of the list patterns says about the line *)

Module SplitterInversion.
Import Py Re Positions Splitter ReFacts SplitterFacts ItemFacts.

(** What a successful greedy repetition consumed. *)
Lemma rep_inv p (s : str) : forall lo hi pos cs (k : cont) r,
  rep p lo hi pos s cs k = Some r ->
  exists n, (lo <= n <= length s)%nat /\
            Forall (fun c => p c = true) (take n s) /\
            k (pos + n)%nat (drop n s) cs = Some r.
Proof.
  induction s as [|c s IH]; intros lo hi pos cs k r H.
  - simpl in H. destruct lo; [|done]. exists 0%nat. simpl.
    rewrite Nat.add_0_r. repeat split; [lia|lia|constructor|done].
  - simpl in H.
    assert (match lo with O => k pos (c :: s) cs | S _ => None end = Some r ->
            exists n, (lo <= n <= length (c :: s))%nat /\
                      Forall (fun c => p c = true) (take n (c :: s)) /\
                      k (pos + n)%nat (drop n (c :: s)) cs = Some r) as Hstop.
    { intros Hs. destruct lo; [|done]. exists 0%nat. simpl.
      rewrite Nat.add_0_r. repeat split; [lia|lia|constructor|done]. }
    destruct (p c && hi_allows hi) eqn:Hc; [|by apply Hstop].
    destruct (rep p (Nat.pred lo) (hi_pred hi) (S pos) s cs k) as [r'|] eqn:Hr;
      [|by apply Hstop].
    injection H as <-. apply IH in Hr as (n & Hn & Hall & Hk).
    apply andb_true_iff in Hc as [Hc _].
    exists (S n). simpl. repeat split; [lia|lia|by constructor|].
    by replace (pos + S n)%nat with (S pos + n)%nat by lia.
Qed.

(** What the pattern [(.+)$] captured. *)
Lemma capture_inv pos (s : str) cs m :
  run (Seq (Grp 1 (plus any)) Eol) pos s cs accept = Some m ->
  exists g tail,
    s = g ++ tail /\ g <> [] /\ Forall (fun c => any c = true) g /\
    (tail = [] \/ tail = [10]) /\
    snd m = (1%nat, g) :: cs.
Proof.
  rewrite run_seq. cbn [run]. unfold plus. cbn [run]. intros H.
  apply rep_inv in H as (n & Hn & Hall & Hk). cbv beta in Hk.
  exists (take n s), (drop n s). split; [by rewrite take_drop|]. split.
  { intros E. apply (f_equal length) in E. rewrite length_take in E. simpl in E. lia. }
  split; [done|].
  replace (pos + n - pos)%nat with n in Hk by lia.
  destruct (drop n s) as [|c [|d t]] eqn:Hd.
  - split; [by left|]. unfold accept in Hk. by injection Hk as <-.
  - cbn [run] in Hk. destruct c as [|q|q]; try done.
    repeat (destruct q as [q|q|]; try done).
    split; [by right|]. unfold accept in Hk. by injection Hk as <-.
  - cbn [run] in Hk. destruct c as [|q|q]; try done;
    repeat (destruct q as [q|q|]; try done).
Qed.

Lemma bullet_inv line m :
  match_ bullet_re line = Some m ->
  exists c ws g tail,
    line = c :: ws ++ g ++ tail /\ inb c [45; 42; 43] = true /\
    ws <> [] /\ whitespace ws /\
    g <> [] /\ Forall (fun c => any c = true) g /\ (tail = [] \/ tail = [10]) /\
    group 1 m = Some g.
Proof.
  unfold match_, bullet_re. cbn [seqs].
  rewrite run_seq, run_bol. cbv beta. rewrite run_seq.
  destruct line as [|c s]; [done|].
  destruct (inb c [45; 42; 43]) eqn:Hc;
    [rewrite run_oneof_hit by done|by rewrite run_oneof_miss by done].
  cbv beta. rewrite run_seq. unfold plus at 1. rewrite run_rep. intros H.
  apply rep_inv in H as (n & Hn & Hws & Hk). cbv beta in Hk.
  apply capture_inv in Hk as (g & tail & Hs & Hg & Hany & Ht & Hm).
  exists c, (take n s), g, tail. split.
  { f_equal. by rewrite <- Hs, take_drop. }
  split; [done|]. split.
  { intros E. apply (f_equal length) in E. rewrite length_take in E. simpl in E. lia. }
  split; [done|]. split; [done|]. split; [done|]. split; [done|].
  unfold group. by rewrite Hm.
Qed.

Lemma ordered_inv line m :
  match_ ordered_re line = Some m ->
  exists ds mk ws g tail,
    line = ds ++ mk :: ws ++ g ++ tail /\
    (ds <> [] /\ Forall (fun c => isdigit c = true) ds) /\
    inb mk [46; 12289; 41] = true /\ whitespace ws /\
    g <> [] /\ Forall (fun c => any c = true) g /\ (tail = [] \/ tail = [10]) /\
    group 1 m = Some g.
Proof.
  unfold match_, ordered_re. cbn [seqs].
  rewrite run_seq, run_bol. cbv beta. rewrite run_seq.
  unfold plus at 1. rewrite run_rep. intros H.
  apply rep_inv in H as (n & Hn & Hds & Hk). cbv beta in Hk.
  rewrite run_seq in Hk.
  destruct (drop n line) as [|c s] eqn:Hd; [done|].
  destruct (inb c [46; 12289; 41]) eqn:Hc;
    [rewrite run_oneof_hit in Hk by done|by rewrite run_oneof_miss in Hk by done].
  cbv beta in Hk. rewrite run_seq in Hk. unfold star in Hk. rewrite run_rep in Hk.
  apply rep_inv in Hk as (n' & _ & Hws & Hk). cbv beta in Hk.
  apply capture_inv in Hk as (g & tail & Hs & Hg & Hany & Ht & Hm).
  exists (take n line), c, (take n' s), g, tail. split.
  { rewrite <- (take_drop n line) at 1. rewrite Hd.
    do 2 f_equal. by rewrite <- Hs, take_drop. }
  split.
  { split; [|done]. intros E. apply (f_equal length) in E.
    rewrite length_take in E. simpl in E. lia. }
  split; [done|]. split; [done|]. split; [done|]. split; [done|]. split; [done|].
  unfold group. by rewrite Hm.
Qed.

Lemma list_item_inv line item :
  list_item line = Some item ->
  exists pre g tail,
    line = pre ++ g ++ tail /\ g <> [] /\ (tail = [] \/ tail = [10]) /\
    item = strip g.
Proof.
  unfold list_item. intros H.
  destruct (match_ bullet_re line) as [m|] eqn:Hb.
  - apply bullet_inv in Hb as (c & ws & g & tail & Hl & _ & _ & _ & Hg & _ & Ht & Hm).
    rewrite Hm in H. injection H as <-. by exists (c :: ws), g, tail.
  - destruct (match_ ordered_re line) as [m|] eqn:Ho; [|done].
    apply ordered_inv in Ho as (ds & mk & ws & g & tail & Hl & _ & _ & _ & Hg & _ & Ht & Hm).
    rewrite Hm in H. injection H as <-.
    exists (ds ++ mk :: ws), g, tail. split; [|done].
    rewrite Hl, <- app_assoc. done.
Qed.

(** ** [strip] *)

Lemma lstrip_split s :
  exists ws, s = ws ++ lstrip s /\ Forall (fun c => isspace c = true) ws.
Proof.
  induction s as [|c s (ws & Hs & Hws)]; [by exists []|].
  simpl. destruct (isspace c) eqn:Hc.
  - exists (c :: ws). simpl. split; [by f_equal|by constructor].
  - by exists [].
Qed.

Lemma lstrip_head s :
  match lstrip s with [] => True | c :: _ => isspace c = false end.
Proof.
  induction s as [|c s IH]; [done|]. simpl.
  destruct (isspace c) eqn:Hc; [done|by rewrite Hc].
Qed.

Lemma lstrip_nil s : lstrip s = [] <-> Forall (fun c => isspace c = true) s.
Proof.
  split.
  - intros H. destruct (lstrip_split s) as (ws & Hs & Hws).
    rewrite H, app_nil_r in Hs. by subst.
  - induction 1 as [|c s Hc _ IH]; [done|]. simpl. by rewrite Hc.
Qed.

Lemma lstrip_fixed s :
  match s with [] => True | c :: _ => isspace c = false end -> lstrip s = s.
Proof. destruct s as [|c s]; [done|]. simpl. by intros ->. Qed.

Lemma strip_split s :
  exists a b, s = a ++ strip s ++ b /\
              Forall (fun c => isspace c = true) a /\
              Forall (fun c => isspace c = true) b.
Proof.
  destruct (lstrip_split s) as (a & Hs & Ha).
  destruct (lstrip_split (rev (lstrip s))) as (b & Hr & Hb).
  exists a, (rev b). split; [|split; [done|by apply Forall_rev]].
  unfold strip, rstrip. rewrite <- rev_app_distr, <- Hr, rev_involutive. exact Hs.
Qed.

Lemma strip_trimmed s : trimmed (strip s).
Proof.
  split.
  - destruct (lstrip_split (rev (lstrip s))) as (b & Hr & Hb).
    apply (f_equal (@rev Z)) in Hr. rewrite rev_involutive, rev_app_distr in Hr.
    fold (rstrip (lstrip s)) in Hr. fold (strip s) in Hr.
    pose proof (lstrip_head s) as Hh. rewrite Hr in Hh.
    by destruct (strip s).
  - unfold strip, rstrip. rewrite rev_involutive. apply lstrip_head.
Qed.

Lemma trimmed_strip s : trimmed s -> strip s = s.
Proof.
  intros [Hh Hl]. unfold strip, rstrip.
  rewrite (lstrip_fixed s Hh), (lstrip_fixed (rev s) Hl). apply rev_involutive.
Qed.

Lemma strip_nil s : strip s = [] <-> Forall (fun c => isspace c = true) s.
Proof.
  split.
  - intros H. destruct (strip_split s) as (a & b & Hs & Ha & Hb).
    rewrite H in Hs. simpl in Hs. subst. by apply Forall_app.
  - intros H. unfold strip. apply lstrip_nil in H. by rewrite H.
Qed.

Lemma strip_Forall (P : Z -> Prop) s : Forall P s -> Forall P (strip s).
Proof.
  intros H. destruct (strip_split s) as (a & b & Hs & _ & _).
  rewrite Hs in H. by apply Forall_app in H as [_ [? _]%Forall_app].
Qed.

Lemma trimmed_last (s : str) c : trimmed (s ++ [c]) -> isspace c = false.
Proof. intros [_ H]. by rewrite rev_app_distr in H. Qed.

(** ** Lines *)

Lemma splitlines_from_no_break n : forall s cur,
  (length s <= n)%nat ->
  Forall (fun c => islinebreak c = false) cur ->
  Forall (Forall (fun c => islinebreak c = false)) (splitlines_from cur s).
Proof.
  induction n as [|n IH]; intros s cur Hn Hcur.
  - destruct s; [|simpl in Hn; lia]. simpl.
    destruct cur; [constructor|]. constructor; [by apply Forall_rev|constructor].
  - destruct s as [|c s].
    { simpl. destruct cur; [constructor|].
      constructor; [by apply Forall_rev|constructor]. }
    simpl in Hn. cbn [splitlines_from].
    destruct (c =? 13).
    + destruct s as [|d s].
      * constructor; [by apply Forall_rev|]. apply IH; [simpl; lia|constructor].
      * assert (Forall (Forall (fun c => islinebreak c = false))
                  (rev cur :: splitlines_from [] s)) as H1.
        { constructor; [by apply Forall_rev|]. apply IH; [simpl in Hn; lia|constructor]. }
        assert (Forall (Forall (fun c => islinebreak c = false))
                  (rev cur :: splitlines_from [] (d :: s))) as H2.
        { constructor; [by apply Forall_rev|]. apply IH; [simpl in *; lia|constructor]. }
        destruct d as [|q|q]; try exact H2.
        repeat (destruct q as [q|q|]; try exact H2). exact H1.
    + destruct (islinebreak c) eqn:Hc.
      * constructor; [by apply Forall_rev|]. apply IH; [lia|constructor].
      * apply IH; [lia|by constructor].
Qed.

Lemma stripped_line_facts text line :
  line ∈ stripped_lines text ->
  line <> [] /\ trimmed line /\ Forall (fun c => islinebreak c = false) line.
Proof.
  unfold stripped_lines. intros H.
  apply list_elem_of_omap in H as (raw & Hraw & Hl).
  destruct (strip raw) as [|c l] eqn:Hs; [done|]. injection Hl as <-.
  split; [done|]. rewrite <- Hs. split; [apply strip_trimmed|].
  apply strip_Forall.
  pose proof (splitlines_from_no_break (length text) text [] (le_n _) (Forall_nil_2 _)) as Hall.
  rewrite Forall_forall in Hall. by apply Hall.
Qed.

(** ** List items *)

Lemma list_item_facts line item :
  line <> [] -> trimmed line -> Forall (fun c => islinebreak c = false) line ->
  list_item line = Some item ->
  item <> [] /\ strip item = item /\ Forall (fun c => islinebreak c = false) item.
Proof.
  intros Hne Htr Hlb H.
  apply list_item_inv in H as (pre & g & tail & Hl & Hg & Ht & ->).
  assert (tail = []) as ->.
  { destruct Ht as [->| ->]; [done|]. exfalso.
    rewrite Hl, !app_assoc in Htr. by apply trimmed_last in Htr. }
  rewrite app_nil_r in Hl. split; [|split].
  - intros Hnil. apply strip_nil in Hnil.
    destruct (exists_last Hg) as (g' & c & ->).
    apply Forall_app in Hnil as [_ Hc]. inversion Hc as [|? ? Hc' _]; subst.
    rewrite app_assoc in Htr. apply trimmed_last in Htr. congruence.
  - apply trimmed_strip, strip_trimmed.
  - apply strip_Forall. rewrite Hl in Hlb. by apply Forall_app in Hlb as [_ ?].
Qed.

(** ** Paragraphs *)

Lemma match_len_spaces pos ws (s : str) :
  ws <> [] -> Forall (fun c => isspace c = true) ws ->
  match s with [] => True | c :: _ => isspace c = false end ->
  match_len spaces_re pos (ws ++ s) = Some (length ws).
Proof.
  intros Hne Hws Hs. unfold match_len, spaces_re, plus. rewrite run_rep.
  rewrite (rep_greedy isspace 1 ws s pos [] accept (pos + length ws, [])%nat);
    [|done|by destruct ws; [|simpl; lia]|done|done].
  assert (0 < length ws)%nat by (destruct ws; [done|simpl; lia]).
  rewrite (proj2 (Nat.ltb_lt pos (pos + length ws))) by lia. f_equal. lia.
Qed.

Lemma sub_from_skip r repl ws : forall pos (s : str),
  sub_from r repl pos (length ws) (ws ++ s) = sub_from r repl (pos + length ws) 0 s.
Proof.
  induction ws as [|c ws IH]; intros pos s.
  - simpl. by rewrite Nat.add_0_r.
  - simpl. rewrite IH. f_equal. lia.
Qed.

(** Collapsing the whitespace of a string that does not end with
    whitespace leaves single plain spaces, each before a character
    that is not whitespace. *)
Lemma sub_spaces_spaced n : forall (s : str) pos,
  (length s <= n)%nat ->
  match rev s with [] => True | c :: _ => isspace c = false end ->
  spaced (sub_from spaces_re [32] pos 0 s) = true /\
  (forall c t, s = c :: t -> isspace c = false ->
     exists t', sub_from spaces_re [32] pos 0 s = c :: t').
Proof.
  induction n as [|n IH]; intros s pos Hn Hlast.
  { destruct s; [done|simpl in Hn; lia]. }
  destruct s as [|c s]; [done|]. simpl in Hn.
  assert (match rev s with [] => True | x :: _ => isspace x = false end) as Hlast'.
  { simpl in Hlast. destruct (rev s); [done|]. exact Hlast. }
  destruct (isspace c) eqn:Hc.
  - destruct (lstrip_split s) as (ws & Hs & Hws).
    pose proof (lstrip_head s) as Hh.
    assert (Forall (fun x => isspace x = true) (c :: ws)) as Hcws by (by constructor).
    destruct (lstrip s) as [|d t] eqn:Ht.
    { exfalso. rewrite app_nil_r in Hs. subst s.
      simpl in Hlast. destruct (rev ws) as [|x r] eqn:Hr.
      - simpl in Hlast. congruence.
      - simpl in Hlast. apply Forall_rev in Hws. rewrite Hr in Hws.
        inversion Hws; subst. congruence. }
    cbn [sub_from].
    rewrite Hs. change (c :: ws ++ d :: t) with ((c :: ws) ++ d :: t).
    rewrite (match_len_spaces pos (c :: ws) (d :: t)) by done.
    cbn [length]. rewrite sub_from_skip.
    destruct (IH (d :: t) (S pos + length ws)%nat) as (Hsp & Hhd).
    { rewrite Hs, length_app in Hn. simpl in *. lia. }
    { rewrite Hs, rev_app_distr in Hlast'. simpl in Hlast' |- *.
      destruct (rev t ++ [d]) eqn:E; [by destruct (rev t)|]. exact Hlast'. }
    destruct (Hhd d t eq_refl Hh) as (t' & Ht').
    rewrite Ht' in *. split.
    + simpl app.
      change (spaced (32 :: d :: t'))
        with ((if isspace 32 then (32 =? 32) && negb (isspace d) else true)
              && spaced (d :: t')).
      by rewrite Hsp, Hh.
    + intros c0 t0 [= <- <-] Hc0. congruence.
  - cbn [sub_from]. rewrite spaces_at_nonspace by done.
    destruct (IH s (S pos)) as (Hsp & _); [lia|done|].
    split.
    + cbn [spaced]. rewrite Hc. exact Hsp.
    + intros c0 t0 [= <- <-] _. by eexists.
Qed.

Lemma sub_spaces_single_spaced item :
  item <> [] -> trimmed item ->
  single_spaced (sub spaces_re (lit " ") item) = true.
Proof.
  intros Hne [Hh Hl]. destruct item as [|c t]; [done|].
  destruct (sub_spaces_spaced (length (c :: t)) (c :: t) 0%nat)
    as (Hsp & Hhd); [done|done|].
  destruct (Hhd c t eq_refl Hh) as (t' & Ht').
  unfold sub. change (lit " ") with [32]. rewrite Ht' in *.
  unfold single_spaced. by rewrite Hh, Hsp.
Qed.

Lemma paragraph_comment_facts text c :
  c ∈ paragraph_comments text -> single_spaced c = true.
Proof.
  unfold paragraph_comments. intros H.
  apply list_elem_of_omap in H as (block & _ & Hb). cbv zeta in Hb.
  pose proof (strip_trimmed block) as Htr.
  destruct (strip block) as [|x item] eqn:Hs; [done|].
  destruct (startswith (lit "#") (x :: item)); [done|].
  destruct (existsb _ _); [done|]. injection Hb as <-.
  by apply sub_spaces_single_spaced.
Qed.

(** ** The shape of a list item *)

Lemma lstrip_app_whitespace d s : whitespace d -> lstrip (d ++ s) = lstrip s.
Proof. induction 1 as [|c d Hc _ IH]; [done|]. simpl. by rewrite Hc. Qed.

Lemma strip_app_whitespace d s : whitespace d -> strip (d ++ s) = strip s.
Proof. intros H. unfold strip. by rewrite lstrip_app_whitespace. Qed.

Lemma trimmed_no_tail (s : str) tail :
  trimmed (s ++ tail) -> tail = [] \/ tail = [10] -> tail = [].
Proof.
  intros Htr [->| ->]; [done|]. by apply trimmed_last in Htr.
Qed.

(** The text a line ends with, after its leading whitespace. *)
Lemma text_of_capture (pre g : str) :
  trimmed (pre ++ g) -> g <> [] -> Forall (fun c => any c = true) g ->
  exists d rest,
    g = d ++ rest /\ whitespace d /\ item_text rest /\ strip g = strip rest.
Proof.
  intros Htr Hg Hany.
  destruct (lstrip_split g) as (d & Hd & Hws).
  exists d, (lstrip g). split; [done|]. split; [done|]. split.
  - split.
    + pose proof (lstrip_head g) as Hh.
      destruct (lstrip g) as [|x r] eqn:E; [|done].
      apply lstrip_nil in E.
      destruct (exists_last Hg) as (g' & c & ->).
      apply Forall_app in E as [_ Hc]. inversion Hc as [|? ? Hc' _]; subst.
      rewrite app_assoc in Htr. apply trimmed_last in Htr. congruence.
    + rewrite Hd in Hany. by apply Forall_app in Hany as [_ ?].
  - rewrite Hd at 1. by apply strip_app_whitespace.
Qed.

(** A stripped line that is a list item has one of the two
    shapes. *)
Lemma list_item_shape line item :
  trimmed line -> list_item line = Some item ->
  bullet_item line item \/ ordered_item line item.
Proof.
  intros Htr H. unfold list_item in H.
  destruct (match_ bullet_re line) as [m|] eqn:Hb.
  - left.
    apply bullet_inv in Hb as (c & ws & g & tail & Hl & Hc & Hne & Hws & Hg & Hany & Ht & Hm).
    rewrite Hm in H. injection H as <-.
    assert (tail = []) as ->.
    { apply (trimmed_no_tail (c :: ws ++ g)); [|done].
      by rewrite <- app_comm_cons, <- app_assoc, <- Hl. }
    rewrite app_nil_r in Hl.
    destruct (text_of_capture (c :: ws) g) as (d & rest & Hgd & Hd & Hrest & Hstrip);
      [by rewrite <- app_comm_cons, <- Hl|done|done|].
    exists c, (ws ++ d), rest. split.
    { by rewrite Hl, Hgd, <- app_assoc. }
    split; [done|]. split; [by destruct ws|]. split; [by apply Forall_app|].
    split; [done|]. done.
  - destruct (match_ ordered_re line) as [m|] eqn:Ho; [|done]. right.
    apply ordered_inv in Ho
      as (ds & mk & ws & g & tail & Hl & Hds & Hmk & Hws & Hg & Hany & Ht & Hm).
    rewrite Hm in H. injection H as <-.
    assert (tail = []) as ->.
    { apply (trimmed_no_tail (ds ++ mk :: ws ++ g)); [|done].
      by rewrite <- app_assoc, <- app_comm_cons, <- app_assoc, <- Hl. }
    rewrite app_nil_r in Hl.
    destruct (text_of_capture (ds ++ mk :: ws) g) as (d & rest & Hgd & Hd & Hrest & Hstrip);
      [by rewrite <- app_assoc, <- app_comm_cons, <- Hl|done|done|].
    exists ds, mk, (ws ++ d), rest. split.
    { by rewrite Hl, Hgd, <- app_assoc. }
    split; [done|]. split; [done|]. split; [by apply Forall_app|].
    split; [done|]. done.
Qed.

(** Conversely, a line of either shape is a list item. *)
Lemma shape_list_item line item :
  bullet_item line item \/ ordered_item line item -> list_item line = Some item.
Proof.
  intros [(c & ws & rest & -> & Hc & Hne & Hws & Hrest & ->)
         |(ds & mk & ws & rest & -> & Hds & Hmk & Hws & Hrest & ->)].
  - by apply list_item_bullet.
  - by apply list_item_ordered.
Qed.

Lemma digit_not_marker c : isdigit c = true -> inb c [46; 12289; 41] = false.
Proof.
  intros H. unfold inb. simpl.
  destruct (c =? 46) eqn:E1; [apply Z.eqb_eq in E1; by subst|].
  destruct (c =? 12289) eqn:E2; [apply Z.eqb_eq in E2; by subst|].
  destruct (c =? 41) eqn:E3; [apply Z.eqb_eq in E3; by subst|]. done.
Qed.

(** Digits followed by a full-width period are no list item. *)
Lemma fullwidth_period_no_item ds rest :
  digits ds -> list_item (ds ++ 65294 :: rest) = None.
Proof.
  intros Hds. unfold list_item. rewrite (ordered_not_bullet ds) by done.
  destruct (match_ ordered_re (ds ++ 65294 :: rest)) as [m|] eqn:Ho; [|done].
  exfalso.
  apply ordered_inv in Ho as (ds' & mk & ws & g & tail & Hl & [_ Hds'] & Hmk & _).
  destruct Hds as [_ Hds].
  apply app_eq_inv in Hl as [(k & Hk1 & Hk2)|(k & Hk1 & Hk2)].
  - destruct k as [|x k].
    + simpl in Hk2. injection Hk2 as -> _. done.
    + injection Hk2 as -> _. rewrite Hk1 in Hds.
      apply Forall_app in Hds as [_ Hds]. inversion Hds as [|? ? Hx _]; subst.
      apply digit_not_marker in Hx. congruence.
  - destruct k as [|x k].
    + simpl in Hk2. injection Hk2 as <- _. done.
    + injection Hk2 as <- _. rewrite Hk1 in Hds'.
      apply Forall_app in Hds' as [_ Hds']. inversion Hds' as [|? ? Hx _]; subst.
      by vm_compute in Hx.
Qed.

(** The items of stripped lines, as the code collects them. *)
Lemma omap_list_items lines :
  Forall trimmed lines -> list_items lines (omap list_item lines).
Proof.
  induction 1 as [|line lines Htr _ IH]; [constructor|].
  cbn [omap list_omap]. destruct (list_item line) as [item|] eqn:Hi.
  - apply items_item; [by apply list_item_shape|done].
  - apply items_skip; [|done]. intros item Hs.
    apply shape_list_item in Hs. congruence.
Qed.

End SplitterInversion.

(** ** Claims about the review splitter *)

Module SplitterClaims.
Import Py Re Positions Splitter SplitterFacts ItemFacts SplitterInversion.

(** C7 as stated fails: a line of digits followed by a full-width
    period (U+FF0E) is not an ordered item. *)
Lemma fullwidth_period_not_ordered :
  ~ (forall ds rest, digits ds -> item_text rest ->
       list_item (ds ++ 65294 :: rest) = Some (strip rest)).
Proof.
  intros H.
  specialize (H (lit "1") (lit "foo")).
  assert (list_item (lit "1" ++ 65294 :: lit "foo") = None) as Hnone by reflexivity.
  rewrite H in Hnone; [done| |].
  - split; [done|]. by repeat constructor.
  - split; [done|]. by repeat constructor.
Qed.

(** C7, amended.  When at least one stripped line of the text
    before the score section is a bullet line or an ordered line, the
    result is the list of the items of these lines, in the order of the
    lines, and the other lines give nothing.  A bullet line is [-],
    [*] or [+] followed by whitespace and text; an ordered line is
    digits followed by [.], [、] or [)], optional whitespace and text;
    the item is the text.  A stripped line is recognised as an item
    exactly when it has one of the two shapes.  Digits followed by a
    full-width period are neither. *)
Theorem list_items_in_document_order :
  (forall review,
     (exists line item, line ∈ review_lines review /\
        (bullet_item line item \/ ordered_item line item)) ->
     list_items (review_lines review) (_split_review_to_comments review) /\
     _split_review_to_comments review = omap list_item (review_lines review)) /\
  (forall review line item, line ∈ review_lines review ->
     list_item line = Some item <-> bullet_item line item \/ ordered_item line item) /\
  (forall line item,
     bullet_item line item \/ ordered_item line item -> list_item line = Some item) /\
  (forall ds rest, digits ds ->
     list_item (ds ++ 65294 :: rest) = None /\
     forall item, ~ (bullet_item (ds ++ 65294 :: rest) item \/
                     ordered_item (ds ++ 65294 :: rest) item)).
Proof.
  assert (forall review, Forall trimmed (review_lines review)) as Htrimmed.
  { intros review. apply Forall_forall. intros line Hin.
    by apply stripped_line_facts in Hin as (_ & ? & _). }
  split; [|split; [|split]].
  - intros review (line & item & Hin & Hshape).
    apply shape_list_item in Hshape.
    assert (item ∈ omap list_item (review_lines review)) as Hitems
      by (apply list_elem_of_omap; eauto).
    assert (_split_review_to_comments review = omap list_item (review_lines review))
      as Hsplit.
    { rewrite split_unfold.
      - destruct (omap list_item (review_lines review)); [|done].
        by apply elem_of_nil in Hitems.
      - intros Hbody. unfold review_lines, review_body in Hin.
        rewrite Hbody in Hin. by apply elem_of_nil in Hin. }
    split; [|done]. rewrite Hsplit. by apply omap_list_items.
  - intros review line item Hin. split; [|apply shape_list_item].
    apply list_item_shape. specialize (Htrimmed review).
    rewrite Forall_forall in Htrimmed. by apply Htrimmed.
  - apply shape_list_item.
  - intros ds rest Hds.
    pose proof (fullwidth_period_no_item ds rest Hds) as Hnone.
    split; [done|]. intros item Hs. apply shape_list_item in Hs. congruence.
Qed.

(** The two ordered items of the sample review. *)
Lemma list_items_in_document_order_witness :
  list_items (review_lines Demo.review) (_split_review_to_comments Demo.review) /\
  _split_review_to_comments Demo.review = omap list_item (review_lines Demo.review).
Proof.
  destruct list_items_in_document_order as (Hall & _).
  apply Hall. exists (lit "1. first"), (lit "first"). split.
  - change (review_lines Demo.review) with [lit "1. first"; lit "2. second"]. left.
  - right. exists (lit "1"), 46, (lit " "), (lit "first").
    split; [reflexivity|]. split; [split; [done|by repeat constructor]|].
    split; [reflexivity|]. split; [by repeat constructor|].
    split; [|reflexivity]. split; [reflexivity|by repeat constructor].
Defined.

(** C8 as stated fails: the comment [# heading], which the split of
    [- # heading] produces, is split into nothing. *)
Lemma split_not_idempotent :
  ~ (forall review c,
       c ∈ _split_review_to_comments review -> _split_review_to_comments c = [c]).
Proof.
  intros H. specialize (H (lit "- # heading") (lit "# heading")).
  assert (_split_review_to_comments (lit "# heading") = []) as Hnil by reflexivity.
  rewrite H in Hnil; [done|].
  change (_split_review_to_comments (lit "- # heading")) with [lit "# heading"].
  left.
Qed.

(** Comments that a split produces and that a second split changes:
    a comment that is itself a list item, one with a run of spaces,
    one that begins with a score heading, a section title, and one that
    begins with the marker. *)
Lemma split_changes_some_comments :
  (_split_review_to_comments (lit "- - a") = [lit "- a"] /\
   _split_review_to_comments (lit "- a") = [lit "a"]) /\
  (_split_review_to_comments (lit "- a  b") = [lit "a  b"] /\
   _split_review_to_comments (lit "a  b") = [lit "a b"]) /\
  (_split_review_to_comments (lit "- " ++ score_total ++ lit " 82")
   = [score_total ++ lit " 82"] /\
   _split_review_to_comments (score_total ++ lit " 82") = []) /\
  (_split_review_to_comments (lit "- " ++ [38382; 39064; 25551; 36848])
   = [[38382; 39064; 25551; 36848]] /\
   _split_review_to_comments [38382; 39064; 25551; 36848] = []) /\
  (_split_review_to_comments (lit "- Auto Review Result: x") = [lit "Auto Review Result: x"] /\
   _split_review_to_comments (lit "Auto Review Result: x") = [lit "x"]).
Proof. repeat split; reflexivity. Qed.

(** C8, amended.  Splitting a plain comment gives exactly that
    comment: a non-empty string whose only whitespace is single plain
    spaces between its words, which does not begin with the marker or a
    score heading, is not a list item, does not start with [#] and is
    not a section title. *)
Theorem split_plain_comment s :
  plain_comment s -> _split_review_to_comments s = [s].
Proof.
  intros (Hsp & Hmark & Hscore & Hitem & Hhash & Htitle).
  pose proof (strip_single_spaced s Hsp) as Hstrip.
  assert (s <> []) as Hne by (by destruct s).
  assert (spaced s = true) as Hspaced.
  { unfold single_spaced in Hsp. destruct s; [done|].
    by apply andb_true_iff in Hsp as [_ ?]. }
  pose proof (spaced_no_linebreak s Hspaced) as Hlb.
  assert (review_body s = s) as Hbody
    by (unfold review_body; by rewrite Hstrip, sub_marker_id).
  assert (cut_score_section s = s) as Hcut
    by (unfold cut_score_section; by rewrite Hscore).
  assert (stripped_lines s = [s]) as Hlines.
  { unfold stripped_lines, splitlines. rewrite splitlines_from_single by done.
    simpl rev. simpl app. destruct s as [|c0 s0] eqn:Es; [done|]. rewrite <- Es in *.
    cbn [omap list_omap]. rewrite Hstrip. by rewrite Es. }
  rewrite split_unfold by (fold (review_body s); by rewrite Hbody).
  unfold review_lines. rewrite Hbody, Hcut, Hlines.
  cbn [omap list_omap]. rewrite Hitem.
  unfold paragraph_comments. rewrite split_blank_single by done.
  cbn [omap list_omap]. rewrite Hstrip.
  destruct s as [|c0 s0] eqn:Es; [done|]. rewrite <- Es in *.
  rewrite Hhash, Htitle. unfold sub. by rewrite sub_spaces_id.
Qed.

Lemma split_plain_comment_witness :
  _split_review_to_comments (lit "Add error handling here")
  = [lit "Add error handling here"].
Proof.
  apply split_plain_comment. repeat split; reflexivity.
Defined.

End SplitterClaims.

(** ** Further properties of the diff scanner *)

Module PositionsExtra.
Import Py Re Json Positions ReFacts PositionsFacts IntFacts.

Lemma rmapM_app {A B} (f : A -> res B) (a b : list A) :
  rmapM f (a ++ b)
  = rbind (rmapM f a) (fun xs => rbind (rmapM f b) (fun ys => Ok (xs ++ ys))).
Proof.
  induction a as [|x a IH]; simpl.
  - by destruct (rmapM f b).
  - destruct (f x); [|done]. simpl. rewrite IH.
    destruct (rmapM f a); [|done]. simpl. by destruct (rmapM f b).
Qed.

(** The positions of a list of changes are the positions of its
    parts, in order; an error in the first part is the error of the
    whole. *)
Theorem positions_of_concatenation lim a b :
  _extract_review_positions lim (a ++ b)
  = rbind (_extract_review_positions lim a) (fun pa =>
    rbind (_extract_review_positions lim b) (fun pb => Ok (pa ++ pb))).
Proof.
  unfold _extract_review_positions. rewrite rmapM_app.
  destruct (rmapM (positions_of_change lim) a) as [xs|]; [|done]. simpl.
  destruct (rmapM (positions_of_change lim) b) as [ys|]; [|done]. simpl.
  by rewrite concat_app.
Qed.

(** After a well-formed header, the lines recorded up to the next
    header are strictly increasing and lie in the hunk: from its start
    up to its start plus the number of non-deletion lines. *)
Theorem recorded_in_hunk_sorted lim pre h n seg out :
  recorded lim pre = Ok out ->
  header_start lim h = Ok (Some n) ->
  is_header h = true ->
  Forall (fun l => is_header l = false) seg ->
  exists more,
    recorded lim (pre ++ h :: seg) = Ok (out ++ more) /\
    StronglySorted Z.lt more /\
    Forall (fun l => n <= l < n + Z.of_nat (new_file_lines seg)) more.
Proof.
  intros Hpre Hn Hh Hseg. apply recorded_scan in Hpre as [cur Hpre].
  unfold recorded. rewrite (scan_app lim pre (h :: seg) _ Hpre). cbn [scan_from].
  rewrite scan_line_header by done. rewrite Hn. cbn [rbind snd].
  destruct (hunk_lines_increasing lim seg n out Hseg) as (more & -> & Hs & Hb).
  by exists more.
Qed.

Lemma recorded_in_hunk_sorted_witness :
  exists more,
    recorded 4300 ([] ++ lit "@@ -1,2 +7,4 @@" :: [lit " a"; lit "+b"; lit "-c"; lit "+d"])
    = Ok ([] ++ more) /\
    StronglySorted Z.lt more /\
    Forall (fun l => 7 <= l < 7 + Z.of_nat (new_file_lines [lit " a"; lit "+b"; lit "-c"; lit "+d"]))
           more.
Proof.
  apply recorded_in_hunk_sorted; [reflexivity|reflexivity|reflexivity|].
  repeat constructor.
Defined.

(** A diff never gives more positions than it has addition lines. *)
Theorem positions_at_most_additions lim diff lines :
  _extract_comment_lines_from_diff lim diff = Ok lines ->
  (length lines
   <= length (filter (fun l => is_addition l = true) (splitlines diff)))%nat.
Proof.
  rewrite extract_is_recorded. intros H. apply recorded_scan in H as [cur H].
  apply scan_count in H. simpl in H. lia.
Qed.

Lemma positions_at_most_additions_witness :
  (length [2; 3]
   <= length (filter (fun l => is_addition l = true) (splitlines demo_diff)))%nat.
Proof.
  apply (positions_at_most_additions 4300 demo_diff [2; 3]). reflexivity.
Defined.



End PositionsExtra.

(** ** The conversion of listed files *)

Module ConversionExtra.
Import Py Re Json Positions Remote PullRequestHandler.

Lemma convert_file_positions lim file converted :
  raw_file file ->
  convert_file file = Ok converted ->
  positions_of_change lim converted = positions_of_change lim file.
Proof.
  intros (m & -> & Hnp & Hop & Hd). unfold convert_file, get, get_default.
  cbn [rbind]. intros [= <-].
  unfold positions_of_change, get, get_default, obj. cbn [rbind].
  rewrite Hnp, Hop, Hd. cbn [default truthy].
  change (list_to_map _ !! "new_path"%string) with (Some (default JNull (m !! "filename"%string))).
  change (list_to_map _ !! "filename"%string) with (@None json).
  change (list_to_map _ !! "old_path"%string) with (Some (default JNull (m !! "filename"%string))).
  change (list_to_map _ !! "diff"%string) with (Some (default (JStr []) (m !! "patch"%string))).
  change (list_to_map _ !! "patch"%string) with (@None json).
  unfold por.
  destruct (m !! "filename"%string) as [v|]; destruct (m !! "patch"%string) as [p|];
    cbn [default from_option id rbind truthy]; try done;
    destruct (truthy v) eqn:Hv; cbn [rbind]; rewrite ?Hv; try done;
    destruct (truthy p) eqn:Htp; cbn [rbind]; by rewrite ?Htp.
Qed.

(** The positions computed from the converted changes are those of
    the files as the provider listed them: the conversion to the
    [new_path]/[diff] shape loses nothing the position extraction
    reads. *)
Theorem conversion_keeps_positions lim files changes :
  Forall raw_file files ->
  convert_files (JArr files) = Ok changes ->
  _extract_review_positions lim changes = _extract_review_positions lim files.
Proof.
  unfold convert_files, _extract_review_positions.
  revert changes. induction files as [|f files IH]; intros changes Hraw Hc.
  - by injection Hc as <-.
  - inversion Hraw as [|? ? Hf Hraw']; subst. simpl in Hc.
    destruct (convert_file f) as [c|] eqn:Ef; [|done]. simpl in Hc.
    destruct (rmapM convert_file files) as [cs|] eqn:Efs; [|done].
    injection Hc as <-. simpl.
    rewrite (convert_file_positions lim f c Hf Ef).
    destruct (positions_of_change lim f) as [ps|]; [|done]. simpl.
    specialize (IH cs Hraw' eq_refl).
    destruct (rmapM (positions_of_change lim) cs) as [pcs|],
             (rmapM (positions_of_change lim) files) as [pfs|]; simpl in *; congruence.
Qed.

Lemma conversion_keeps_positions_witness :
  exists changes,
    convert_files Demo.files = Ok changes /\
    _extract_review_positions 4300 changes = Ok Demo.positions.
Proof.
  eexists. split; [reflexivity|].
  erewrite (conversion_keeps_positions 4300
              [obj [("filename", JStr (lit "biz/demo.py")); ("patch", JStr demo_diff);
                    ("additions", JInt 2); ("deletions", JInt 1)]%string]);
    [reflexivity| |reflexivity].
  constructor; [|constructor]. eexists. by repeat split.
Defined.

End ConversionExtra.

(** ** Further properties of comment delivery *)

Module DeliveryExtra.
Import Py Re Json Positions Splitter Remote PullRequestHandler Delivery DeliveryFacts.




(** One review costs at most [max 1 n + 1] requests, [n] being the
    configured maximum: the inline comments and the aggregate
    comment. *)
Theorem requests_per_review h review changes e tr head ps :
  head_commit_id_of (webhook_data h) = Ok head ->
  _extract_review_positions (int_max_str_digits e) (default [] changes) = Ok ps ->
  Z.of_nat (length (issued (length tr)
                      (snd (add_pull_request_notes h review changes e tr))))
  <= Z.max 1 (configured_max e) + 1.
Proof.
  intros Hhead Hps.
  rewrite (add_pull_request_notes_run _ _ _ _ _ _ _ Hhead Hps).
  unfold issued.
  destruct (review_comments review) as [|c0 cs] eqn:Hrc.
  { cbn [snd]. rewrite drop_all. simpl. lia. }
  destruct (negb (truthy head) || bool_decide (ps = [])) eqn:Hcond; cbn [snd].
  { rewrite drop_app_length. simpl. lia. }
  apply orb_false_iff in Hcond as [_ Hne]. apply bool_decide_eq_false in Hne.
  rewrite drop_app_length, DeliveryClaims.calls_app, DeliveryClaims.calls_map_Call.
  rewrite length_app. unfold inline_requests. rewrite length_map.
  rewrite (DeliveryClaims.assigned_length ps _ 0%nat Hne).
  assert (Z.of_nat (length (delivered_comments e review)) <= Z.max 1 (configured_max e)) as Hcap.
  { unfold delivered_comments, cap_comments. rewrite length_take. lia. }
  destruct (successes _ _ _ =? 0); simpl; lia.
Qed.

Lemma requests_per_review_witness :
  Z.of_nat (length (issued (length (@nil event))
     (snd (add_pull_request_notes Demo.pr_handler Demo.review (Some Demo.changes)
             (Demo.constant_env 422 None [(max_count_key, lit "1")]) []))))
  <= Z.max 1 (configured_max (Demo.constant_env 422 None [(max_count_key, lit "1")])) + 1.
Proof.
  apply (requests_per_review Demo.pr_handler Demo.review (Some Demo.changes)
           (Demo.constant_env 422 None [(max_count_key, lit "1")]) []
           (JStr (lit "head_commit_sha")) Demo.positions); reflexivity.
Defined.

Lemma lstrip_whitespace s : whitespace s -> lstrip s = [].
Proof.
  induction 1 as [|c s Hc Hs IH]; [done|]. cbn [lstrip]. by rewrite Hc.
Qed.

Lemma strip_whitespace s : whitespace s -> strip s = [].
Proof. intros H. unfold strip, rstrip. by rewrite (lstrip_whitespace s H). Qed.

(** A review made of whitespace only is not dropped: its comment
    list is the single empty string. *)
Theorem whitespace_review_is_one_empty_comment review :
  review <> [] -> whitespace review -> review_comments review = [[]].
Proof.
  intros Hne Hws. unfold review_comments, _split_review_to_comments.
  rewrite (strip_whitespace review Hws).
  destruct review as [|c r]; [done|]. reflexivity.
Qed.

Lemma whitespace_review_is_one_empty_comment_witness :
  review_comments [32; 10; 9] = [[]].
Proof.
  apply whitespace_review_is_one_empty_comment; [done|].
  by repeat constructor.
Defined.



End DeliveryExtra.

(** ** Further properties of the push handler *)

Module PushExtra.
Import Py Json Remote PushHandler PushRequests DeliveryFacts.

Lemma parent_trace h commit_id e tr :
  snd (get_parent_commit_id h commit_id e tr)
  = tr ++ [Call (parent_request h commit_id)].
Proof.
  unfold get_parent_commit_id, requests_get.
  erewrite bind_ok by reflexivity. fold (parent_request h commit_id).
  destruct (status_code _ =? 200); [|done].
  unfold lift, json_of. destruct (body _) as [j|]; [|done].
  erewrite bind_ok by reflexivity.
  destruct (get j "parents") as [parents|] eqn:Hp; [|by erewrite bind_raise].
  erewrite bind_ok by reflexivity.
  destruct (truthy parents); [|done].
  destruct (first_item parents) as [parent|] eqn:Hf; [|by erewrite bind_raise].
  erewrite bind_ok by reflexivity. done.
Qed.

(** The parent lookup sends exactly one request whatever the
    answer.  An answer with another status than 200, or without
    parents, gives the empty string and no error; an answer with
    parents gives the [sha] of the first. *)
Theorem parent_lookup h commit_id e tr :
  let response := server e tr (parent_request h commit_id) in
  snd (get_parent_commit_id h commit_id e tr)
  = tr ++ [Call (parent_request h commit_id)] /\
  (status_code response <> 200 ->
   fst (get_parent_commit_id h commit_id e tr) = Ok (JStr [])) /\
  (forall m : gmap string json,
     status_code response = 200 -> body response = Some (JObj m) ->
     m !! "parents"%string = None \/ m !! "parents"%string = Some (JArr []) ->
     fst (get_parent_commit_id h commit_id e tr) = Ok (JStr [])) /\
  (forall (m p : gmap string json) others,
     status_code response = 200 -> body response = Some (JObj m) ->
     m !! "parents"%string = Some (JArr (JObj p :: others)) ->
     fst (get_parent_commit_id h commit_id e tr)
     = Ok (default (JStr []) (p !! "sha"%string))).
Proof.
  intros response. split; [apply parent_trace|].
  unfold get_parent_commit_id, requests_get.
  erewrite bind_ok by reflexivity. fold (parent_request h commit_id). fold response.
  split; [|split].
  - intros Hs. apply Z.eqb_neq in Hs. by rewrite Hs.
  - intros m Hs Hb Hp. rewrite Hs, Z.eqb_refl. unfold lift, json_of. rewrite Hb.
    erewrite bind_ok by reflexivity. unfold get, get_default.
    erewrite bind_ok by reflexivity. by destruct Hp as [-> | ->].
  - intros m p others Hs Hb Hp. rewrite Hs, Z.eqb_refl. unfold lift, json_of. rewrite Hb.
    erewrite bind_ok by reflexivity. unfold get, get_default.
    erewrite bind_ok by reflexivity. rewrite Hp. cbn [default from_option id truthy first_item].
    by erewrite bind_ok by reflexivity.
Qed.

Lemma parent_lookup_witness :
  fst (get_parent_commit_id Demo.push_handler (JStr (lit "sample_commit_id"))
         Demo.push_env [])
  = Ok (default (JStr [])
          ((list_to_map [("sha"%string, JStr (lit "parent_commit_sha"))] : gmap string json)
             !! "sha"%string)).
Proof.
  pose proof (parent_lookup Demo.push_handler (JStr (lit "sample_commit_id"))
                Demo.push_env []) as (_ & _ & _ & H).
  eapply H; reflexivity.
Defined.

Lemma compare_trace h base head e tr :
  snd (repository_compare h base head e tr)
  = tr ++ [Call (compare_request h base head)].
Proof.
  unfold repository_compare, requests_get.
  erewrite bind_ok by reflexivity. fold (compare_request h base head).
  destruct (status_code _ =? 200); [|done].
  unfold lift, json_of. destruct (body _) as [j|]; [|done].
  erewrite bind_ok by reflexivity.
  destruct (get_default j "files" (JArr [])) as [files|] eqn:Hf; [|by erewrite bind_raise].
  by erewrite bind_ok by reflexivity.
Qed.

Lemma read_parent h c : is_read (parent_request h c).
Proof. by split. Qed.

Lemma read_compare h b c : is_read (compare_request h b c).
Proof. by split. Qed.

Lemma reads_refl n tr : reads_at_most n tr tr.
Proof. exists []. simpl. rewrite app_nil_r. repeat split; [lia|constructor]. Qed.

Lemma reads_trans n1 n2 tr1 tr2 tr3 :
  reads_at_most n1 tr1 tr2 -> reads_at_most n2 tr2 tr3 ->
  reads_at_most (n1 + n2) tr1 tr3.
Proof.
  intros (a & -> & Ha & Hra) (b & -> & Hb & Hrb).
  exists (a ++ b). rewrite map_app, app_assoc, length_app.
  repeat split; [lia|by apply Forall_app].
Qed.

Lemma reads_weaken n m tr tr' :
  (n <= m)%nat -> reads_at_most n tr tr' -> reads_at_most m tr tr'.
Proof. intros Hle (a & -> & Ha & Hr). exists a. repeat split; [lia|done]. Qed.

Lemma reads_parent h c e tr :
  reads_at_most 1 tr (snd (get_parent_commit_id h c e tr)).
Proof.
  rewrite parent_trace. exists [parent_request h c].
  repeat split; [simpl; lia|]. constructor; [apply read_parent|constructor].
Qed.

Lemma reads_compare h b c e tr :
  reads_at_most 1 tr (snd (repository_compare h b c e tr)).
Proof.
  rewrite compare_trace. exists [compare_request h b c].
  repeat split; [simpl; lia|]. constructor; [apply read_compare|constructor].
Qed.

Lemma reads_bind {A B} (m : M A) (f : A -> M B) n1 n2 e tr :
  reads_at_most n1 tr (snd (m e tr)) ->
  (forall a tr', reads_at_most n2 tr' (snd (f a e tr'))) ->
  reads_at_most (n1 + n2) tr (snd (bind m f e tr)).
Proof.
  intros Hm Hf. unfold bind. destruct (m e tr) as [[a|x] tr'] eqn:E; simpl in *.
  - eapply reads_trans; [exact Hm|apply Hf].
  - eapply reads_weaken; [|exact Hm]. lia.
Qed.

Lemma reads_lift {A} (r : res A) e tr : reads_at_most 0 tr (snd (lift r e tr)).
Proof. apply reads_refl. Qed.

Lemma reads_ret {A} (a : A) e tr : reads_at_most 0 tr (snd (ret a e tr)).
Proof. apply reads_refl. Qed.

Lemma reads_commits h e : forall commits changes tr,
  reads_at_most (2 * length commits) tr
    (snd (changes_from_commits h commits changes e tr)).
Proof.
  induction commits as [|c commits IH]; intros changes tr; [apply reads_refl|].
  cbn [changes_from_commits length].
  replace (2 * S (length commits))%nat with (0 + (2 + 2 * length commits))%nat by lia.
  apply reads_bind; [apply reads_lift|]. intros commit_id tr1.
  destruct (truthy commit_id).
  - replace (2 + 2 * length commits)%nat with (1 + (1 + 2 * length commits))%nat by lia.
    apply reads_bind; [apply reads_parent|]. intros parent_id tr2.
    destruct (truthy parent_id).
    + apply reads_bind; [apply reads_compare|]. intros cc tr3. apply IH.
    + eapply reads_weaken; [|apply IH]. lia.
  - eapply reads_weaken; [|apply IH]. lia.
Qed.

(** [get_push_changes] only reads: every request is the lookup of
    a commit or a comparison, and there are at most two of them per
    commit of the push (two in all when the refs are compared). *)
Theorem push_changes_requests h e tr :
  exists new,
    snd (get_push_changes h e tr) = tr ++ map Call new /\
    (length new <= 2 * Nat.max 1 (commit_count (commit_list h)))%nat /\
    Forall is_read new.
Proof.
  change (reads_at_most (2 * Nat.max 1 (commit_count (commit_list h))) tr
            (snd (get_push_changes h e tr))).
  set (N := (2 * Nat.max 1 (commit_count (commit_list h)))%nat).
  assert (2 <= N)%nat as H2 by lia.
  assert (2 * commit_count (commit_list h) <= N)%nat as Hn by lia.
  clearbody N. unfold get_push_changes.
  destruct (negb (bool_decide _)); [apply reads_refl|].
  destruct (negb (truthy (commit_list h))); [apply reads_refl|].
  apply (reads_bind _ _ 0%nat N); [apply reads_lift|]. intros before tr1.
  apply (reads_bind _ _ 0%nat N); [apply reads_lift|]. intros after tr2.
  destruct (truthy before && truthy after).
  - apply (reads_weaken 2); [done|].
    apply (reads_bind _ _ 0%nat 2%nat); [apply reads_lift|]. intros created tr3.
    destruct (truthy created).
    + apply (reads_bind _ _ 0%nat 2%nat); [apply reads_lift|]. intros first tr4.
      apply (reads_bind _ _ 0%nat 2%nat); [apply reads_lift|]. intros first_id tr5.
      destruct (truthy first_id).
      * apply (reads_bind _ _ 1%nat 1%nat); [apply reads_parent|]. intros parent tr6.
        destruct (truthy parent); apply reads_compare.
      * apply (reads_weaken 1); [lia|]. apply reads_compare.
    + apply (reads_bind _ _ 0%nat 2%nat); [apply reads_lift|]. intros deleted tr4.
      destruct (truthy deleted); [apply reads_refl|].
      apply (reads_weaken 1); [lia|]. apply reads_compare.
  - unfold bind, lift.
    destruct (commit_list h) as [| | | |l|]; cbn [commits_to_iterate snd];
      try apply reads_refl.
    apply (reads_weaken (2 * length l)); [done|]. apply reads_commits.
Qed.

(** The note of a push goes to its last commit, in one request;
    without commits, or when the last commit has no id, nothing is
    sent. *)
Theorem push_note_on_last_commit h message e tr :
  (truthy (commit_list h) = false ->
   add_push_notes h message e tr = (Ok tt, tr)) /\
  (forall earlier (c : gmap string json),
     commit_list h = JArr (earlier ++ [JObj c]) ->
     add_push_notes h message e tr
     = (Ok tt,
        if truthy (default JNull (c !! "id"%string))
        then tr ++ [Call (note_request h (default JNull (c !! "id"%string)) message)]
        else tr)).
Proof.
  split.
  - intros H. unfold add_push_notes. by rewrite H.
  - intros earlier c Hcl. unfold add_push_notes. rewrite Hcl.
    assert (truthy (JArr (earlier ++ [JObj c])) = true) as -> by (by destruct earlier).
    cbn [negb]. unfold lift, last_item. rewrite last_snoc.
    erewrite bind_ok by reflexivity. unfold get, get_default.
    erewrite bind_ok by reflexivity.
    destruct (truthy (default JNull (c !! "id"%string))); [|done]. cbn [negb].
    unfold requests_post. by erewrite bind_ok by reflexivity.
Qed.

Lemma push_note_on_last_commit_witness :
  add_push_notes Demo.deleted_handler_no_commits (lit "note") Demo.push_env []
  = (Ok tt, []) /\
  add_push_notes Demo.push_handler (lit "note") Demo.push_env []
  = (Ok tt, [] ++ [Call (note_request Demo.push_handler
                           (JStr (lit "sample_commit_id")) (lit "note"))]).
Proof.
  split.
  - pose proof (push_note_on_last_commit Demo.deleted_handler_no_commits (lit "note")
                  Demo.push_env []) as [H _].
    by apply H.
  - pose proof (push_note_on_last_commit Demo.push_handler (lit "note")
                  Demo.push_env []) as [_ H].
    exact (H [] (list_to_map [("id"%string, JStr (lit "sample_commit_id"))]) eq_refl).
Defined.

End PushExtra.

(** ** The change filter *)

Module ChangesExtra.
Import Py Re Json Remote Changes.

Lemma not_deleted_filter changes kept_changes :
  not_deleted changes = Ok kept_changes ->
  kept_changes = filter (fun c => is_deleted_change c = Ok false) changes /\
  Forall (fun c => exists b, is_deleted_change c = Ok b) changes.
Proof.
  revert kept_changes. induction changes as [|c changes IH]; intros k H.
  - injection H as <-. split; [done|constructor].
  - simpl in H. destruct (is_deleted_change c) as [b|] eqn:Hd; [|done]. simpl in H.
    destruct (not_deleted changes) as [k'|]; [|done]. simpl in H. injection H as <-.
    destruct (IH k' eq_refl) as [-> Hall].
    split; [|constructor; [by eexists|done]].
    destruct b.
    + by rewrite filter_cons_False by (rewrite Hd; congruence).
    + by rewrite filter_cons_True by done.
Qed.

Lemma by_extension_filter exts items out :
  by_extension exts items = Ok out ->
  rmapM project (filter (fun c => has_supported_extension exts c = Ok true) items) = Ok out.
Proof.
  revert out. induction items as [|c items IH]; intros out H.
  - by injection H as <-.
  - simpl in H. destruct (has_supported_extension exts c) as [b|] eqn:Hx; [|done].
    simpl in H. destruct b.
    + rewrite filter_cons_True by done. simpl.
      destruct (project c) as [q|]; [|done]. simpl in *.
      destruct (by_extension exts items) as [o|]; [|done]. simpl in H.
      injection H as <-. by rewrite (IH o eq_refl).
    + rewrite filter_cons_False by (rewrite Hx; congruence). by apply IH.
Qed.

Lemma kept_spec exts c :
  kept exts c = true
  <-> is_deleted_change c = Ok false /\ has_supported_extension exts c = Ok true.
Proof.
  unfold kept. destruct (is_deleted_change c) as [[|]|], (has_supported_extension exts c) as [[|]|];
    split; try done; by intros [? ?].
Qed.

(** What a projected change looks like to the filter. *)
Lemma projected_passes exts c q :
  kept exts c = true -> project c = Ok q ->
  kept exts q = true /\ project q = Ok q.
Proof.
  intros [Hd Hx]%kept_spec Hp.
  destruct c as [| | | | |m]; try done.
  unfold project, get_default in Hp. cbn [rbind] in Hp.
  destruct (m !! "new_path"%string) as [np|] eqn:Hnp; [|done].
  cbn [rbind] in Hp. injection Hp as <-.
  set (d := default (JStr []) (m !! "diff"%string)).
  set (a := default (JInt 0) (m !! "additions"%string)).
  set (de := default (JInt 0) (m !! "deletions"%string)).
  assert (is_deleted_change
            (obj [("diff", d); ("new_path", np); ("additions", a); ("deletions", de)]%string)
          = Ok false) as Hd'.
  { unfold is_deleted_change, get, get_default, obj in *. cbn [rbind] in *.
    change (list_to_map _ !! "status"%string) with (@None json).
    change (list_to_map _ !! "diff"%string) with (Some d).
    cbn [default from_option id is_removed].
    destruct (is_removed (default JNull (m !! "status"%string))); [done|].
    exact Hd. }
  assert (has_supported_extension exts
            (obj [("diff", d); ("new_path", np); ("additions", a); ("deletions", de)]%string)
          = Ok true) as Hx'.
  { unfold has_supported_extension, get_default, obj in *.
    destruct exts as [|ext exts]; [done|]. cbn [rbind] in *.
    change (list_to_map _ !! "new_path"%string) with (Some np).
    rewrite Hnp in Hx. exact Hx. }
  split; [by apply kept_spec|].
  unfold project, get_default, obj. cbn [rbind].
  change (list_to_map _ !! "diff"%string) with (Some d).
  change (list_to_map _ !! "new_path"%string) with (Some np).
  change (list_to_map _ !! "additions"%string) with (Some a).
  change (list_to_map _ !! "deletions"%string) with (Some de).
  reflexivity.
Qed.

Lemma filter_changes_spec e changes out :
  filter_changes e changes = Ok out ->
  rmapM project (filter (fun c => kept (supported_extensions e) c = true) changes) = Ok out.
Proof.
  unfold filter_changes. intros H.
  destruct (not_deleted changes) as [k|] eqn:Hk; [|done]. simpl in H.
  apply by_extension_filter in H.
  destruct (not_deleted_filter _ _ Hk) as [-> _].
  rewrite list_filter_filter in H.
  erewrite list_filter_iff; [exact H|].
  intros c. rewrite kept_spec. tauto.
Qed.

Lemma rmapM_Forall2 {A B} (f : A -> res B) l out :
  rmapM f l = Ok out -> Forall2 (fun a b => f a = Ok b) l out.
Proof.
  revert out. induction l as [|a l IH]; intros out H.
  - injection H as <-. constructor.
  - simpl in H. destruct (f a) as [b|] eqn:Hb; [|done]. simpl in H.
    destruct (rmapM f l) as [bs|]; [|done]. injection H as <-.
    constructor; [done|by apply IH].
Qed.

Lemma passing_fixed e out :
  Forall (fun q => kept (supported_extensions e) q = true /\ project q = Ok q) out ->
  filter_changes e out = Ok out.
Proof.
  intros H. unfold filter_changes.
  assert (not_deleted out = Ok out) as ->.
  { induction H as [|q out [Hk _] _ IH]; [done|].
    apply kept_spec in Hk as [Hd _]. simpl. by rewrite Hd, IH. }
  simpl. induction H as [|q out [Hk Hp] _ IH]; [done|].
  apply kept_spec in Hk as [_ Hx]. simpl. by rewrite Hx, Hp, IH.
Qed.


(** Filtering is idempotent: a filtered list passes the filter
    unchanged. *)
Theorem filter_changes_idempotent e changes out :
  filter_changes e changes = Ok out -> filter_changes e out = Ok out.
Proof.
  intros H. apply filter_changes_spec in H. apply passing_fixed.
  apply rmapM_Forall2 in H.
  assert (Forall (fun c => kept (supported_extensions e) c = true)
            (filter (fun c => kept (supported_extensions e) c = true) changes)) as Hk
    by (apply Forall_forall; intros c Hc; by apply list_elem_of_filter in Hc as [? _]).
  revert Hk. induction H as [|c q cs qs Hp _ IH]; intros Hk; [constructor|].
  inversion Hk as [|? ? Hc Hk']; subst.
  constructor; [by apply (projected_passes _ c)|by apply IH].
Qed.


Lemma filter_changes_idempotent_witness :
  filter_changes Demo.push_env Demo.filtered_mixed_changes
  = Ok Demo.filtered_mixed_changes.
Proof.
  apply (filter_changes_idempotent Demo.push_env Demo.mixed_changes).
  vm_compute. reflexivity.
Defined.

Lemma project_shape exts c q :
  has_supported_extension exts c = Ok true -> project c = Ok q ->
  exists (m : gmap string json) p,
    q = JObj m /\
    dom m = list_to_set ["diff"; "new_path"; "additions"; "deletions"]%string /\
    m !! "new_path"%string = Some (JStr p) /\
    Exists (fun ext => endswith ext p = true) exts.
Proof.
  intros Hx Hp. destruct c as [| | | | |m]; try done.
  unfold project, get_default in Hp. cbn [rbind] in Hp.
  destruct (m !! "new_path"%string) as [np|] eqn:Hnp; [|done].
  cbn [rbind] in Hp. injection Hp as <-.
  unfold has_supported_extension, get_default in Hx.
  destruct exts as [|ext exts]; [done|]. cbn [rbind] in Hx. rewrite Hnp in Hx.
  cbn [default from_option id] in Hx. destruct np as [| | |p| |]; try done.
  assert (existsb (fun x => endswith x p) (ext :: exts) = true) as Hany by congruence.
  apply existsb_exists in Hany as (x & Hin & Hend).
  eexists _, p. split; [reflexivity|]. split; [|split].
  - rewrite dom_list_to_map_L. reflexivity.
  - reflexivity.
  - apply Exists_exists. exists x. split; [|done]. by apply list_elem_of_In.
Qed.

(** Every entry of the result is a dictionary with exactly the keys
    [diff], [new_path], [additions] and [deletions], and its
    [new_path] is a string that ends with one of the supported
    extensions. *)
Theorem filtered_change_shape e changes out :
  filter_changes e changes = Ok out ->
  Forall (fun q => exists (m : gmap string json) p,
            q = JObj m /\
            dom m = list_to_set ["diff"; "new_path"; "additions"; "deletions"]%string /\
            m !! "new_path"%string = Some (JStr p) /\
            Exists (fun ext => endswith ext p = true) (supported_extensions e)) out.
Proof.
  intros H. apply filter_changes_spec, rmapM_Forall2 in H.
  assert (Forall (fun c => kept (supported_extensions e) c = true)
            (filter (fun c => kept (supported_extensions e) c = true) changes)) as Hk
    by (apply Forall_forall; intros c Hc; by apply list_elem_of_filter in Hc as [? _]).
  revert Hk. induction H as [|c q cs qs Hp _ IH]; intros Hk; [constructor|].
  inversion Hk as [|? ? Hc Hk']; subst. apply kept_spec in Hc as [_ Hx].
  constructor; [by apply (project_shape _ c)|by apply IH].
Qed.

Lemma filtered_change_shape_witness :
  Forall (fun q => exists (m : gmap string json) p,
            q = JObj m /\
            dom m = list_to_set ["diff"; "new_path"; "additions"; "deletions"]%string /\
            m !! "new_path"%string = Some (JStr p) /\
            Exists (fun ext => endswith ext p = true)
                   (supported_extensions Demo.push_env))
         Demo.filtered_mixed_changes.
Proof.
  apply (filtered_change_shape Demo.push_env Demo.mixed_changes).
  vm_compute. reflexivity.
Defined.

Lemma readable_deleted c : readable_change c -> exists b, is_deleted_change c = Ok b.
Proof.
  intros (m & p & -> & _ & Hd). unfold is_deleted_change, get, get_default. cbn [rbind].
  destruct (is_removed _); [by eexists|].
  destruct Hd as [-> | [d ->]]; cbn [default from_option id].
  - destruct (truthy (JStr [])); by eexists.
  - destruct (truthy (JStr d)); [|by eexists].
    destruct (match_ deleted_header_re d); by eexists.
Qed.

Lemma readable_extension exts c :
  readable_change c -> exists b, has_supported_extension exts c = Ok b.
Proof.
  intros (m & p & -> & Hp & _). unfold has_supported_extension, get_default.
  destruct exts; [by eexists|]. cbn [rbind]. rewrite Hp. by eexists.
Qed.

Lemma readable_project c : readable_change c -> exists q, project c = Ok q.
Proof.
  intros (m & p & -> & Hp & _). unfold project, get_default. cbn [rbind].
  rewrite Hp. by eexists.
Qed.

(** On readable changes [filter_changes] raises no error. *)
Theorem filter_changes_returns e changes :
  Forall readable_change changes -> exists out, filter_changes e changes = Ok out.
Proof.
  intros H. unfold filter_changes.
  assert (exists k, not_deleted changes = Ok k /\ Forall readable_change k) as (k & -> & Hk).
  { induction H as [|c cs Hc _ (k & IH & Hk)]; [by exists []|].
    destruct (readable_deleted c Hc) as [b Hb]. simpl. rewrite Hb, IH. simpl.
    destruct b; eexists; split; try done. by constructor. }
  simpl. clear H. induction Hk as [|c cs Hc _ (out & IH)]; [by exists []|].
  destruct (readable_extension (supported_extensions e) c Hc) as [b Hb].
  destruct (readable_project c Hc) as [q Hq].
  simpl. rewrite Hb. simpl. destruct b; [|by eexists].
  rewrite Hq, IH. by eexists.
Qed.

Lemma filter_changes_returns_witness :
  exists out, filter_changes Demo.push_env Demo.mixed_changes = Ok out.
Proof.
  apply filter_changes_returns.
  repeat constructor; eexists _, _; (split; [reflexivity|]); split;
    first [reflexivity | by left | right; by eexists].
Defined.

End ChangesExtra.

(** ** Further properties of the review splitter *)

Module SplitterExtra.
Import Py Re Positions Splitter ReFacts SplitterFacts ItemFacts SplitterInversion.

Lemma single_spaced_facts c :
  single_spaced c = true ->
  c <> [] /\ strip c = c /\ Forall (fun x => islinebreak x = false) c.
Proof.
  intros H. split; [by destruct c|]. split; [by apply strip_single_spaced|].
  apply spaced_no_linebreak. unfold single_spaced in H.
  destruct c; [done|]. by apply andb_true_iff in H as [_ ?].
Qed.

(** Every comment the splitter returns is usable as it is: it is not
    empty, has no whitespace at either end, and is a single line. *)
Theorem comments_well_formed review :
  Forall (fun c => c <> [] /\ strip c = c /\
                   Forall (fun x => islinebreak x = false) c)
         (_split_review_to_comments review).
Proof.
  unfold _split_review_to_comments.
  destruct review as [|r0 review]; [constructor|].
  destruct (sub marker_re [] (strip (r0 :: review))) as [|t0 text]; [constructor|].
  set (body := cut_score_section (t0 :: text)).
  destruct (omap list_item (stripped_lines body)) as [|i0 items] eqn:Hitems.
  - apply Forall_forall. intros c Hc.
    by apply single_spaced_facts, (paragraph_comment_facts body).
  - rewrite <- Hitems. apply Forall_forall. intros c Hc.
    apply list_elem_of_omap in Hc as (line & Hline & Hc).
    apply stripped_line_facts in Hline as (Hne & Htr & Hlb).
    by apply (list_item_facts line).
Qed.

(** Without list items the comments are the paragraphs in normal
    form: words separated by single plain spaces. *)
Theorem paragraphs_single_spaced review :
  omap list_item (review_lines review) = [] ->
  Forall (fun c => single_spaced c = true) (_split_review_to_comments review).
Proof.
  intros Hnone. unfold _split_review_to_comments.
  unfold review_lines, review_body in Hnone.
  destruct review as [|r0 review]; [constructor|].
  destruct (sub marker_re [] (strip (r0 :: review))) as [|t0 text]; [constructor|].
  rewrite Hnone. apply Forall_forall. intros c Hc.
  by apply paragraph_comment_facts in Hc.
Qed.

Lemma paragraphs_single_spaced_witness :
  Forall (fun c => single_spaced c = true)
    (_split_review_to_comments
       (lit "first   point" ++ [10; 10] ++ lit "second" ++ [9; 10] ++ lit "point")).
Proof.
  apply paragraphs_single_spaced. vm_compute. reflexivity.
Defined.

End SplitterExtra.

(** ** Commits, refs and the two conversions *)

Module CommitsExtra.
Import Py Json Remote PullRequestHandler DeliveryFacts.

(** The first piece of a split is the text before the first
    separator. *)
Lemma split_on_from_head sep (s : str) : forall cur,
  exists first rest,
    head (split_on_from sep cur s) = Some (rev cur ++ first) /\
    s = first ++ rest /\
    Forall (fun c => c <> sep) first /\
    (rest = [] \/ head rest = Some sep).
Proof.
  induction s as [|c s IH]; intros cur.
  - exists [], []. simpl. rewrite app_nil_r. repeat split; [constructor|by left].
  - simpl. destruct (c =? sep) eqn:Hc.
    + apply Z.eqb_eq in Hc as ->. exists [], (sep :: s). simpl.
      rewrite app_nil_r. repeat split; [constructor|by right].
    + apply Z.eqb_neq in Hc.
      destruct (IH (c :: cur)) as (first & rest & Hh & -> & Hf & Hr).
      exists (c :: first), rest. simpl in Hh. rewrite <- app_assoc in Hh.
      repeat split; [done|by constructor|done].
Qed.

Lemma convert_commit_title commit c :
  convert_commit commit = Ok c ->
  exists (m : gmap string json) message title,
    c = JObj m /\
    m !! "message"%string = Some (JStr message) /\
    m !! "title"%string = Some (JStr title) /\
    m !! "id"%string = Some (default JNull (match commit with
                                            | JObj d => d !! "sha"%string
                                            | _ => None
                                            end)) /\
    title_of message title.
Proof.
  unfold convert_commit. intros H.
  destruct (get commit "sha") as [sha|] eqn:Hsha; [|done]. cbn [rbind] in H.
  destruct (get_default commit "commit" (JObj ∅)) as [inner|]; [|done]. cbn [rbind] in H.
  destruct (get_default inner "message" (JStr [])) as [message|]; [|done]. cbn [rbind] in H.
  destruct message as [| | |msg| |]; try done. cbn [rbind] in H.
  destruct (get_default inner "author" (JObj ∅)) as [author|]; [|done]. cbn [rbind] in H.
  destruct (get author "name") as [an|]; [|done]. cbn [rbind] in H.
  destruct (get author "email") as [ae|]; [|done]. cbn [rbind] in H.
  destruct (get author "date") as [ad|]; [|done]. cbn [rbind] in H.
  destruct (get commit "html_url") as [wu|]; [|done]. cbn [rbind] in H.
  injection H as <-.
  destruct (split_on_from_head 10 msg []) as (first & rest & Hh & Hm & Hf & Hr).
  fold (split_on 10 msg) in Hh. rewrite Hh. simpl.
  eexists _, msg, first. split; [reflexivity|].
  split; [reflexivity|]. split; [reflexivity|]. split.
  - destruct commit; try done. unfold get, get_default in Hsha.
    injection Hsha as <-. reflexivity.
  - by exists rest.
Qed.

(** [get_pull_request_commits] sends one request, the listing of the
    pull request's commits.  Any status but 200 gives the empty list.
    With status 200 and a list of commits, every converted commit
    carries the [sha] as [id], the message, and as [title] the message
    up to its first line feed. *)
Theorem pull_request_commits h e tr :
  event_type h = lit "pull_request" ->
  let request := {| meth := GET;
                    target := PullCommits (repo_full_name h) (pull_request_number h);
                    token := github_token h; payload := None |} in
  let response := server e tr request in
  snd (get_pull_request_commits h e tr) = tr ++ [Call request] /\
  (status_code response <> 200 -> fst (get_pull_request_commits h e tr) = Ok []) /\
  (forall commits out,
     status_code response = 200 -> body response = Some (JArr commits) ->
     fst (get_pull_request_commits h e tr) = Ok out ->
     Forall2 (fun commit c =>
                exists (m : gmap string json) message title,
                  c = JObj m /\
                  m !! "message"%string = Some (JStr message) /\
                  m !! "title"%string = Some (JStr title) /\
                  m !! "id"%string
                  = Some (default JNull (match commit with
                                         | JObj d => d !! "sha"%string
                                         | _ => None
                                         end)) /\
                  title_of message title)
             commits out).
Proof.
  intros Hev request response. unfold get_pull_request_commits.
  unfold Splitter.str_eqb. rewrite Hev, bool_decide_eq_true_2 by done. cbn [negb].
  unfold requests_get. fold request.
  erewrite bind_ok by reflexivity. fold response.
  split; [|split].
  - destruct (status_code response =? 200); [|done].
    unfold lift, json_of. destruct (body response) as [j|]; [|done].
    by erewrite bind_ok by reflexivity.
  - intros Hs. apply Z.eqb_neq in Hs. by rewrite Hs.
  - intros commits out Hs Hb. rewrite Hs, Z.eqb_refl. unfold lift, json_of. rewrite Hb.
    erewrite bind_ok by reflexivity. cbn [fst for_each_dict].
    clear Hb. revert out. induction commits as [|commit commits IH]; intros out Hout.
    + injection Hout as <-. constructor.
    + simpl in Hout. destruct (convert_commit commit) as [c|] eqn:Hc; [|done].
      simpl in Hout. destruct (rmapM convert_commit commits) as [cs|]; [|done].
      injection Hout as <-. constructor; [by apply convert_commit_title|by apply IH].
Qed.

Lemma pull_request_commits_witness :
  snd (get_pull_request_commits Demo.pr_handler Demo.commits_env [])
  = [] ++ [Call {| meth := GET;
                   target := PullCommits (repo_full_name Demo.pr_handler)
                                         (pull_request_number Demo.pr_handler);
                   token := github_token Demo.pr_handler; payload := None |}] /\
  exists out,
    fst (get_pull_request_commits Demo.pr_handler Demo.commits_env []) = Ok out /\
    Forall2 (fun commit c =>
               exists (m : gmap string json) message title,
                 c = JObj m /\
                 m !! "message"%string = Some (JStr message) /\
                 m !! "title"%string = Some (JStr title) /\
                 m !! "id"%string
                 = Some (default JNull (match commit with
                                        | JObj d => d !! "sha"%string
                                        | _ => None
                                        end)) /\
                 title_of message title)
            Demo.commits out.
Proof.
  pose proof (pull_request_commits Demo.pr_handler Demo.commits_env [] eq_refl)
    as (Htrace & _ & Hconv).
  split; [exact Htrace|].
  eexists. split; [reflexivity|].
  apply Hconv; reflexivity.
Defined.

End CommitsExtra.

Module RefExtra.
Import Py Json Remote PushHandler.

Lemma replace_from_absent old new (s : str) :
  absent old s -> replace_from old new 0 s = s.
Proof.
  induction s as [|c s IH]; intros H; [done|].
  pose proof (H 0%nat) as H0. change (drop 0 (c :: s)) with (c :: s) in H0.
  cbn [replace_from]. rewrite H0 by (simpl; lia). f_equal. apply IH.
  intros k Hk. apply (H (S k)). simpl. lia.
Qed.

Lemma replace_from_skip old new ws : forall (s : str),
  replace_from old new (length ws) (ws ++ s) = replace_from old new 0 s.
Proof. induction ws as [|c ws IH]; intros s; [done|]. simpl. apply IH. Qed.

Lemma startswith_app (p s : str) : startswith p (p ++ s) = true.
Proof. induction p as [|c p IH]; [done|]. simpl. by rewrite Z.eqb_refl. Qed.

Lemma replace_prefix old new (s : str) :
  old <> [] -> absent old s -> replace old new (old ++ s) = new ++ s.
Proof.
  intros Hne Hs. unfold replace. destruct old as [|c old]; [done|].
  change ((c :: old) ++ s) with (c :: (old ++ s)). cbn [replace_from].
  change (c :: (old ++ s)) with ((c :: old) ++ s). rewrite startswith_app.
  cbn [length Nat.pred]. by rewrite replace_from_skip, replace_from_absent.
Qed.

(** The branch name of a push is its [ref] without [refs/heads/]: a
    branch ref loses the prefix, and a ref in which [refs/heads/] does
    not occur (a tag, say) is kept whole. *)
Theorem branch_of_ref webhook_data token url h r :
  init webhook_data token url = Ok h ->
  get_default webhook_data "ref" (JStr []) = Ok (JStr r) ->
  (absent (lit "refs/heads/") r -> branch_name h = r) /\
  (forall b, r = lit "refs/heads/" ++ b -> absent (lit "refs/heads/") b ->
             branch_name h = b).
Proof.
  unfold init. intros H Hr.
  destruct (get_default webhook_data "repository" (JObj ∅)) as [repo|]; [|done].
  cbn [rbind] in H. destruct (get repo "full_name") as [fn|]; [|done].
  cbn [rbind] in H. rewrite Hr in H. cbn [rbind] in H.
  destruct (get_default webhook_data "commits" (JArr [])) as [cl|]; [|done].
  cbn [rbind] in H. injection H as <-. cbn [branch_name]. split.
  - intros Ha. by apply replace_from_absent.
  - intros b -> Hb. by rewrite replace_prefix.
Qed.

Lemma branch_of_ref_witness : branch_name Demo.push_handler = lit "main".
Proof.
  pose proof (branch_of_ref Demo.push_webhook (lit "") (lit "https://github.com")
                Demo.push_handler (lit "refs/heads/main") eq_refl eq_refl) as [_ H].
  apply H; [reflexivity|].
  intros k Hk. do 4 (destruct k as [|k]; [reflexivity|]). simpl in Hk. lia.
Defined.

End RefExtra.

Module PipelineExtra.
Import Py Json Remote Changes.

Lemma existsb_Exists {A} (f : A -> bool) l :
  Exists (fun x => f x = true) l -> existsb f l = true.
Proof.
  intros H. apply existsb_exists. apply Exists_exists in H as (x & Hx & Hf).
  exists x. split; [by apply list_elem_of_In|done].
Qed.

(** A listed file with status [removed] and no patch fares
    differently on the two paths: the conversion of a pull request's
    files drops the status, so the filter keeps the file; the
    conversion of a comparison carries the status, so the filter
    drops it. *)
Theorem removed_status_after_conversion e (m : gmap string json) p :
  m !! "status"%string = Some (JStr (lit "removed")) ->
  m !! "filename"%string = Some (JStr p) ->
  m !! "patch"%string = None ->
  Exists (fun ext => endswith ext p = true) (supported_extensions e) ->
  (exists c q, PullRequestHandler.convert_file (JObj m) = Ok c /\
               filter_changes e [c] = Ok [q]) /\
  (exists c, PushHandler.convert_compare_file (JObj m) = Ok c /\
             filter_changes e [c] = Ok []).
Proof.
  intros Hst Hfn Hpa Hext. apply existsb_Exists in Hext.
  split.
  - unfold PullRequestHandler.convert_file, get, get_default. cbn [rbind].
    rewrite Hfn, Hpa. cbn [default from_option id].
    eexists _, _. split; [reflexivity|].
    unfold filter_changes. cbn [not_deleted].
    unfold is_deleted_change, get, get_default, obj. cbn [rbind].
    change (list_to_map _ !! "status"%string) with (@None json).
    change (list_to_map _ !! "diff"%string) with (Some (JStr [])).
    cbn [default from_option id is_removed truthy rbind by_extension].
    unfold has_supported_extension, get_default.
    destruct (supported_extensions e) as [|ext exts] eqn:Hexts; [done|].
    cbn [rbind].
    change (list_to_map _ !! "new_path"%string) with (Some (JStr p)).
    cbn [default from_option id]. rewrite Hext. cbn [rbind].
    unfold project, get_default. cbn [rbind].
    change (list_to_map _ !! "new_path"%string) with (Some (JStr p)).
    cbn [rbind]. reflexivity.
  - unfold PushHandler.convert_compare_file, get, get_default. cbn [rbind].
    rewrite Hfn, Hpa, Hst. cbn [default from_option id].
    eexists. split; [reflexivity|].
    unfold filter_changes. cbn [not_deleted].
    unfold is_deleted_change, get, get_default, obj. cbn [rbind].
    change (list_to_map _ !! "status"%string) with (Some (JStr (lit "removed"))).
    reflexivity.
Qed.

Lemma removed_status_after_conversion_witness :
  (exists c q, PullRequestHandler.convert_file Demo.removed_file = Ok c /\
               filter_changes Demo.push_env [c] = Ok [q]) /\
  (exists c, PushHandler.convert_compare_file Demo.removed_file = Ok c /\
             filter_changes Demo.push_env [c] = Ok []).
Proof.
  apply (removed_status_after_conversion Demo.push_env _ (lit "biz/old.py"));
    try reflexivity.
  apply Exists_cons_tl, Exists_cons_hd. reflexivity.
Defined.

End PipelineExtra.
